(** * Verification of the graph-score worklist of thoth-graph-estimator

    A shallow embedding of [_fill_graph_score] (src/app.py, lines 118-164):
    the seeding walk over the package names of the graph database and the
    [while subgraphs:] loop that drains the deque of [SubGraphEntity]
    objects against the [package] table.

    - Python [float] is IEEE 754 binary64: it is modelled by Rocq's primitive
      [float], whose multiplication is the same correctly rounded operation.
    - A nullable column is an [option]; [None] is SQL NULL / Python [None].
      A committed float comes back as SQLite keeps it: NaN as NULL, a zero
      without its sign.
    - A Python [set] is a duplicate-free list in an order in which the set
      can iterate.  [-=] is taken to keep the order of the elements that
      stay, which CPython does not promise: what is proved of rescheduled
      entities rests on the names a set holds, not on their order.
    - The [package] table is the list of its rows in query order;
      [.filter(...).first()] returns the first row that matches.
    - The [while] loop need not terminate, so it is run on a fuel counter
      that counts its iterations. *)

From Stdlib Require Import List String ZArith Bool Lia Floats Permutation.
Import ListNotations.

Local Open Scope string_scope.
Local Open Scope list_scope.

(** ** Data model *)

(** [class Package(_ModelBase)]: a row of table [package].  The primary key
    [id] is never read by the algorithm and is left out. *)
Module Package.
Record t : Type := Build {
  package_name : string;
  version_count : option Z;
  subgraph_size : option float
}.
End Package.

(** [class SubGraphEntity]: an attrs class with slots; the defaults of
    [attr.ib] are those of [SubGraphEntity.make]. *)
Module SubGraphEntity.
Record t : Type := Build {
  subgraph_name : string;
  subgraphs_seen : list string;
  to_visit : list string;
  subgraph_size : float
}.

(** [SubGraphEntity(subgraph_name=n, to_visit=tv)] *)
Definition make (n : string) (tv : list string) : t :=
  Build n [] tv 1%float.
End SubGraphEntity.

(** The two methods of [GraphDatabase] that [_fill_graph_score] calls:
    [get_python_package_version_names_all(distinct=True)] and
    [get_depends_on_package_names(package_name)]. *)
Record GraphDatabase : Type := {
  get_python_package_version_names_all : list string;
  get_depends_on_package_names : string -> list string
}.

(** The session is the content of table [package]; every write of the
    function is followed by [session.commit()]. *)
Definition Session : Type := list Package.t.

(** ** Python built-ins *)

(** [x in s] *)
Definition set_contains (s : list string) (x : string) : bool :=
  existsb (String.eqb x) s.

(** [s.add(x)] *)
Definition set_add (s : list string) (x : string) : list string :=
  if set_contains s x then s else s ++ [x].

(** [set(l)]: the order of first occurrence in [l] stands for the order in
    which the set iterates. *)
Definition set_of (l : list string) : list string :=
  fold_left set_add l [].

(** [s -= t].  The elements that stay are kept in their order; CPython can
    rebuild the table of the set and iterate them in another one, so the
    theorems below rest on which names the result holds, not on their
    order. *)
Definition set_isub (s t : list string) : list string :=
  filter (fun x => negb (set_contains t x)) s.

(** [float(n)] for an integer [n]: the nearest binary64 value.  This is what
    a [Float] column gives back for an integer stored in it, and what
    [float * int] converts its right operand to. *)
Definition float_of_int (n : Z) : float :=
  SF2Prim (binary_normalize prec emax n 0 false).

(** ** The table *)

(** [session.query(Package).filter(Package.package_name == name).first()] *)
Fixpoint query_first (session : Session) (name : string) : option Package.t :=
  match session with
  | [] => None
  | row :: rows =>
      if String.eqb (Package.package_name row) name then Some row
      else query_first rows name
  end.

(** What an assignment [entry.subgraph_size = value] assigns: [None], the
    integer of column [version_count] (line 134) or the float of an entity
    (line 161). *)
Inductive assigned : Type :=
| PyNone
| PyInt (n : Z)
| PyFloat (x : float).

(** What column [subgraph_size] reads back once a float was committed: the
    SQLite table behind the session binds NaN as NULL and keeps no sign on
    a zero. *)
Definition stored (x : float) : option float :=
  if is_nan x then None
  else if is_zero x then Some 0%float
  else Some x.

(** What column [subgraph_size] reads back once [value] was committed; an
    integer comes back as the float of the [Float] column. *)
Definition committed (value : assigned) : option float :=
  match value with
  | PyNone => None
  | PyInt n => Some (float_of_int n)
  | PyFloat x => stored x
  end.

(** The UPDATE of the commit: column [subgraph_size] of the first row named
    [name] becomes [value]. *)
Fixpoint update_subgraph_size (session : Session) (name : string)
    (value : option float) : Session :=
  match session with
  | [] => []
  | row :: rows =>
      if String.eqb (Package.package_name row) name
      then Package.Build (Package.package_name row)
                         (Package.version_count row) value :: rows
      else row :: update_subgraph_size rows name value
  end.

(** [entry.subgraph_size = value; session.commit()] where [entry] is the row
    that [query_first session name] returned. *)
Definition set_subgraph_size (session : Session) (name : string)
    (value : assigned) : Session :=
  update_subgraph_size session name (committed value).

(** ** The seeding walk (lines 122-137) *)

(** One iteration of [for package_name in graph.get_python_...] on the
    session and the deque.  Line 127 appends an entity for every package;
    line 137 appends a second one when the package has dependencies. *)
Definition seed_package (graph : GraphDatabase) (package_name : string)
    (st : Session * list SubGraphEntity.t) : Session * list SubGraphEntity.t :=
  let (session, subgraphs) := st in
  let dependencies := get_depends_on_package_names graph package_name in
  let subgraphs :=
    subgraphs ++ [SubGraphEntity.make package_name (set_of dependencies)] in
  match dependencies with
  | [] =>
      match query_first session package_name with
      | None => (session, subgraphs)
      | Some entry =>
          (set_subgraph_size session package_name
             match Package.version_count entry with
             | Some n => PyInt n
             | None => PyNone
             end,
           subgraphs)
      end
  | _ :: _ =>
      (session,
       subgraphs ++ [SubGraphEntity.make package_name (set_of dependencies)])
  end.

Definition seed (graph : GraphDatabase) (session : Session)
    : Session * list SubGraphEntity.t :=
  fold_left (fun st package_name => seed_package graph package_name st)
            (get_python_package_version_names_all graph) (session, []).

(** ** The drain loop (lines 139-164) *)

(** How [for package_name in subgraph.to_visit] ends.  Each constructor
    carries the entity's [subgraph_size] and [subgraphs_seen] as the loop
    left them. *)
Inductive visit_outcome : Type :=
| Exhausted (size : float) (seen : list string)   (* the [else] clause runs *)
| Unresolved (size : float) (seen : list string)  (* [break] at line 146 *)
| Rescheduled (size : float) (seen : list string) (* [append], [break] at 151 *)
| TypeError.                                      (* [float * None] at 153 *)

Fixpoint visit (session : Session) (pending : list string)
    (size : float) (seen : list string) : visit_outcome :=
  match pending with
  | [] => Exhausted size seen
  | package_name :: pending' =>
      match query_first session package_name with
      | None => Unresolved size seen
      | Some entry =>
          match Package.subgraph_size entry with
          | None => Rescheduled size seen
          | Some s =>
              match Package.version_count entry with
              | None => TypeError
              | Some c =>
                  visit session pending'
                        (size * (s * float_of_int c))%float
                        (set_add seen package_name)
              end
          end
      end
  end.

(** One iteration of [while subgraphs:] on the entity popped from the left:
    the session after it and the entities appended to the right of the
    deque, or [None] when the [TypeError] leaves the function.  The entity
    appended at line 150 is the popped object itself, so the update of
    [to_visit] at line 164 is seen through the deque. *)
Definition process (session : Session) (subgraph : SubGraphEntity.t)
    : option (Session * list SubGraphEntity.t) :=
  match visit session (SubGraphEntity.to_visit subgraph)
              (SubGraphEntity.subgraph_size subgraph)
              (SubGraphEntity.subgraphs_seen subgraph) with
  | TypeError => None
  | Exhausted size _ =>
      match query_first session (SubGraphEntity.subgraph_name subgraph) with
      | None => Some (session, [])
      | Some _ =>
          Some (set_subgraph_size session
                  (SubGraphEntity.subgraph_name subgraph) (PyFloat size), [])
      end
  | Unresolved _ _ => Some (session, [])
  | Rescheduled size seen =>
      Some (session,
            [SubGraphEntity.Build (SubGraphEntity.subgraph_name subgraph) seen
               (set_isub (SubGraphEntity.to_visit subgraph) seen) size])
  end.

(** Where the function stands after at most [fuel] iterations of the loop. *)
Inductive outcome : Type :=
| Finished (session : Session)              (* the deque is empty: return *)
| Crashed                                   (* a [TypeError] was raised *)
| Running (session : Session) (subgraphs : list SubGraphEntity.t).

Fixpoint drain (fuel : nat) (session : Session)
    (subgraphs : list SubGraphEntity.t) : outcome :=
  match subgraphs with
  | [] => Finished session
  | subgraph :: rest =>
      match fuel with
      | O => Running session subgraphs
      | S fuel' =>
          match process session subgraph with
          | None => Crashed
          | Some (session', again) => drain fuel' session' (rest ++ again)
          end
      end
  end.

(** [_fill_graph_score(graph, session)] *)
Definition _fill_graph_score (fuel : nat) (graph : GraphDatabase)
    (session : Session) : outcome :=
  let (session', subgraphs) := seed graph session in
  drain fuel session' subgraphs.

(** The column [subgraph_size] of the package [name]; [None] when it is NULL
    or when the package has no row. *)
Definition size_of (session : Session) (name : string) : option float :=
  match query_first session name with
  | None => None
  | Some entry => Package.subgraph_size entry
  end.

(** ** What the theorems speak about *)

(** A dependency can be folded in when its row exists and both of its
    columns are set; [foldable] names the two values read. *)
Definition foldable (session : Session) (d : string) (s : float) (c : Z)
    : Prop :=
  exists entry, query_first session d = Some entry
                /\ Package.subgraph_size entry = Some s
                /\ Package.version_count entry = Some c.

(** The accumulator after multiplying in, from left to right, the
    dependencies of [pending] with sizes [size] and version counts [count]. *)
Definition product (size : string -> float) (count : string -> Z)
    (pending : list string) (start : float) : float :=
  fold_left (fun acc d => (acc * (size d * float_of_int (count d)))%float)
            pending start.

(** Every row has its [version_count] set: what [_fill_version_count]
    establishes for the rows it writes. *)
Definition counted (session : Session) : Prop :=
  Forall (fun r => Package.version_count r <> None) session.

(** What one iteration of the [while] loop can do. *)
Inductive processed (session : Session) (subgraph : SubGraphEntity.t)
    : Session -> list SubGraphEntity.t -> Prop :=
| processed_scored acc seen :
    visit session (SubGraphEntity.to_visit subgraph)
          (SubGraphEntity.subgraph_size subgraph)
          (SubGraphEntity.subgraphs_seen subgraph) = Exhausted acc seen ->
    query_first session (SubGraphEntity.subgraph_name subgraph) <> None ->
    processed session subgraph
      (update_subgraph_size session (SubGraphEntity.subgraph_name subgraph)
                            (stored acc)) []
| processed_no_subject acc seen :
    visit session (SubGraphEntity.to_visit subgraph)
          (SubGraphEntity.subgraph_size subgraph)
          (SubGraphEntity.subgraphs_seen subgraph) = Exhausted acc seen ->
    query_first session (SubGraphEntity.subgraph_name subgraph) = None ->
    processed session subgraph session []
| processed_dropped acc seen :
    visit session (SubGraphEntity.to_visit subgraph)
          (SubGraphEntity.subgraph_size subgraph)
          (SubGraphEntity.subgraphs_seen subgraph) = Unresolved acc seen ->
    processed session subgraph session []
| processed_rescheduled acc seen :
    visit session (SubGraphEntity.to_visit subgraph)
          (SubGraphEntity.subgraph_size subgraph)
          (SubGraphEntity.subgraphs_seen subgraph) = Rescheduled acc seen ->
    processed session subgraph session
      [SubGraphEntity.Build (SubGraphEntity.subgraph_name subgraph) seen
         (set_isub (SubGraphEntity.to_visit subgraph) seen) acc].

(** The entities that the seeding walk appends for the package [p]. *)
Definition seeded_for (graph : GraphDatabase) (p : string)
    : list SubGraphEntity.t :=
  let entity :=
    SubGraphEntity.make p (set_of (get_depends_on_package_names graph p)) in
  match get_depends_on_package_names graph p with
  | [] => [entity]
  | _ :: _ => [entity; entity]
  end.

(** ** Invariants of the loops *)


(** An entity that has folded nothing in yet and whose first dependency has
    a row without a size. *)
Definition blocked (session : Session) (w : SubGraphEntity.t) : Prop :=
  SubGraphEntity.subgraphs_seen w = []
  /\ exists d pending entry,
       SubGraphEntity.to_visit w = d :: pending
       /\ query_first session d = Some entry
       /\ Package.subgraph_size entry = None.

(** The row of the leaf [name] exists, its entities are as the seeding walk
    made them, and either one of them is still in the deque or the row
    already holds [1.0]. *)
Definition leaf_pending (name : string) (session : Session)
    (subgraphs : list SubGraphEntity.t) : Prop :=
  query_first session name <> None
  /\ (forall w, In w subgraphs -> SubGraphEntity.subgraph_name w = name ->
                w = SubGraphEntity.make name [])
  /\ ((exists w, In w subgraphs /\ SubGraphEntity.subgraph_name w = name)
      \/ size_of session name = Some 1%float).

(** ** Scenarios *)

Definition graph_of (names : list string)
    (edges : list (string * list string)) : GraphDatabase :=
  {| get_python_package_version_names_all := names;
     get_depends_on_package_names := fun p =>
       match find (fun e => String.eqb (fst e) p) edges with
       | Some e => snd e
       | None => []
       end |}.

Definition row (name : string) (count : Z) (size : option float) : Package.t :=
  Package.Build name (Some count) size.

Definition scenario_AB : Session := [row "A" 3 None; row "B" 2 None].
Definition edges_AB : list (string * list string) := [("A", []); ("B", ["A"])].


(** The table of [scenario_AB] once the seeding walk has marked [A]. *)
Definition seeded_AB : Session := [row "A" 3 (Some 3%float); row "B" 2 None].

(** A dependency whose row has a size but no version count. *)
Definition uncounted : Session :=
  [Package.Build "D" None (Some 2%float); row "P" 1 None].

(** [P] depends on [U] and on [M]; [U] depends on [M]; [M] has no row. *)
Definition missing_M : Session := [row "P" 1 None; row "U" 1 None].
Definition edges_missing_M : list (string * list string) :=
  [("P", ["U"; "M"]); ("U", ["M"])].
Definition graph_missing_M : GraphDatabase :=
  graph_of ["P"; "U"] edges_missing_M.

(** [C] depends on [D] and [D] depends on [C]; both have a row without a
    size.  [names] is the order in which the graph database lists them. *)
Definition edges_cycle : list (string * list string) :=
  [("C", ["D"]); ("D", ["C"])].
Definition graph_cycle (names : list string) : GraphDatabase :=
  graph_of names edges_cycle.
Definition unscored_cycle : Session := [row "C" 1 None; row "D" 1 None].

(** Three dependencies of [P] with sizes [3^20], [3^20] and [3^25] and
    version counts 3, 3 and 7. *)
Definition rounding : Session :=
  [row "E" 3 (Some 3486784401%float); row "F" 3 (Some 3486784401%float);
   row "G" 7 (Some 847288609443%float); row "P" 1 None].

(** [X] depends on [B] and [B] on [A]; the size of [B] was written before
    the row of [A] changed. *)
Definition outdated : Session :=
  [row "A" 3 (Some 3%float); row "B" 2 (Some 100%float); row "X" 1 None].
Definition graph_outdated : GraphDatabase :=
  graph_of ["X"; "B"] [("X", ["B"]); ("B", ["A"])].

(** A table on which nothing was computed yet: [X] depends on [C] and on the
    leaf [A], [C] depends on [A]; the set of [X] iterates [C] first. *)
Definition unscored_XCA : Session :=
  [row "A" 3 None; row "C" 2 None; row "X" 1 None].
Definition graph_XCA : GraphDatabase :=
  graph_of ["X"; "C"; "A"] [("X", ["C"; "A"]); ("C", ["A"]); ("A", [])].

(** A single package without dependencies. *)
Definition graph_A : GraphDatabase := graph_of ["A"] [("A", [])].
Definition unscored_A : Session := [row "A" 3 None].

(** ** The version counts (lines 103-115) *)

(** [entry.version_count = value; session.commit()] where [entry] is the row
    that [query_first session name] returned. *)
Fixpoint set_version_count (session : Session) (name : string)
    (value : option Z) : Session :=
  match session with
  | [] => []
  | row :: rows =>
      if String.eqb (Package.package_name row) name
      then Package.Build (Package.package_name row) value
                         (Package.subgraph_size row) :: rows
      else row :: set_version_count rows name value
  end.

(** One iteration of the loop of [_fill_version_count]: [count] is
    [graph.get_package_versions_count_all].  A package without a row gets a
    new one, [Package(package_name=package_name)], after the rows that
    exist. *)
Definition count_package (count : string -> Z) (session : Session)
    (package_name : string) : Session :=
  match query_first session package_name with
  | None =>
      session ++ [Package.Build package_name (Some (count package_name)) None]
  | Some _ => set_version_count session package_name (Some (count package_name))
  end.

(** [_fill_version_count(graph, session)]; the third method of
    [GraphDatabase], [get_package_versions_count_all], is passed beside the
    two of the record. *)
Definition _fill_version_count (graph : GraphDatabase)
    (get_package_versions_count_all : string -> Z) (session : Session)
    : Session :=
  fold_left (count_package get_package_versions_count_all)
            (get_python_package_version_names_all graph) session.

(** The names of the rows that have no version count. *)
Definition uncounted_names (session : Session) : list string :=
  map Package.package_name
      (filter (fun r => match Package.version_count r with
                        | None => true
                        | Some _ => false
                        end) session).

(** ** What [_fill_graph_score] leaves alone *)

(** The columns [package_name] and [version_count] of the table, row by
    row. *)
Definition keys (session : Session) : list (string * option Z) :=
  map (fun r => (Package.package_name r, Package.version_count r)) session.

(** The row of [name] is as before the call and no entity of the deque is
    for [name]. *)
Definition untouched (name : string) (before_run : Session)
    (session : Session) (subgraphs : list SubGraphEntity.t) : Prop :=
  query_first session name = query_first before_run name
  /\ forall w, In w subgraphs -> SubGraphEntity.subgraph_name w <> name.

(** The table is the one the call started with, and every entity of the
    deque has folded nothing in; one without dependencies is for a package
    without a row. *)
Definition idle (before_run : Session) (session : Session)
    (subgraphs : list SubGraphEntity.t) : Prop :=
  session = before_run
  /\ forall w, In w subgraphs ->
       SubGraphEntity.subgraphs_seen w = []
       /\ (SubGraphEntity.to_visit w = [] ->
           query_first before_run (SubGraphEntity.subgraph_name w) = None).

(** ** The command [pile] (lines 209-223) *)

(** [pile(path, recreate)].  The file at [path] is [None] when it does not
    exist and [Some rows] when it holds the rows of table [package];
    [os.remove] deletes it when [recreate] is set, and [_get_session]
    creates the table, empty, in a file that has none.  The call of
    [_fill_version_count] is commented out (line 222), so the table goes to
    [_fill_graph_score] as the file has it. *)
Definition pile (fuel : nat) (graph : GraphDatabase)
    (file : option Session) (recreate : bool) : outcome :=
  let file :=
    match file with
    | Some rows => if recreate then None else Some rows
    | None => None
    end in
  let session := match file with Some rows => rows | None => [] end in
  _fill_graph_score fuel graph session.

(** ** Graphs on which the loop ends *)

(** Every dependency still to visit has a size: the visit of the entity
    will reach the [else] clause. *)
Definition ready (session : Session) (w : SubGraphEntity.t) : bool :=
  forallb (fun d => match size_of session d with
                    | Some _ => true
                    | None => false
                    end) (SubGraphEntity.to_visit w).

(** Every row has its version count and every listed package its row; the
    entities of the deque are for listed packages and visit dependencies of
    theirs; a listed package has an entity in the deque or a size. *)
Definition settling (graph : GraphDatabase) (session : Session)
    (subgraphs : list SubGraphEntity.t) : Prop :=
  counted session
  /\ (forall p, In p (get_python_package_version_names_all graph) ->
                query_first session p <> None)
  /\ (forall w, In w subgraphs ->
        In (SubGraphEntity.subgraph_name w)
           (get_python_package_version_names_all graph)
        /\ forall d, In d (SubGraphEntity.to_visit w) ->
             In d (get_depends_on_package_names graph
                     (SubGraphEntity.subgraph_name w)))
  /\ (forall p, In p (get_python_package_version_names_all graph) ->
        (exists w, In w subgraphs /\ SubGraphEntity.subgraph_name w = p)
        \/ size_of session p <> None).

(** The rank of the packages of [graph_XCA]: a package ranks above its
    dependencies. *)
Definition rank_XCA (p : string) : nat :=
  if String.eqb p "X" then 2 else if String.eqb p "C" then 1 else 0.

(** ** The states of a call *)

(** One more iteration of the [while] loop from where the function
    stands. *)
Definition advance (o : outcome) : outcome :=
  match o with
  | Running session (subgraph :: rest) =>
      match process session subgraph with
      | None => Crashed
      | Some (session', again) => drain 0 session' (rest ++ again)
      end
  | _ => o
  end.

(** A factor that an entity multiplied into its accumulator at line 153:
    the dependency and the two values read from its row. *)
Record factor : Type := {
  factor_name : string;
  factor_size : float;
  factor_count : Z
}.

(** [subgraph.subgraph_size *= entry.subgraph_size * entry.version_count] *)
Definition multiply (acc : float) (f : factor) : float :=
  (acc * (factor_size f * float_of_int (factor_count f)))%float.

(** The accumulator after the factors of [history], first to last. *)
Definition factors_product (history : list factor) (start : float) : float :=
  fold_left multiply history start.

(** The row of the dependency held the values of [f] in the table of an
    iteration of the call, the [k]-th at the latest, that popped an entity
    of [name]. *)
Definition read_before (graph : GraphDatabase) (session : Session)
    (name : string) (k : nat) (f : factor) : Prop :=
  exists j current w rest,
    (j <= k)%nat
    /\ _fill_graph_score j graph session = Running current (w :: rest)
    /\ SubGraphEntity.subgraph_name w = name
    /\ foldable current (factor_name f) (factor_size f) (factor_count f).

(** The books of an entity of the deque after [k] iterations: it is for a
    listed package; [subgraphs_seen] and [to_visit] together hold the direct
    dependencies of the package, each once; the accumulator is [1.0]
    multiplied by one factor for each name of [subgraphs_seen], in that
    order, each read from the row of its dependency in an earlier
    iteration. *)
Definition accounted (graph : GraphDatabase) (session : Session) (k : nat)
    (w : SubGraphEntity.t) : Prop :=
  In (SubGraphEntity.subgraph_name w)
     (get_python_package_version_names_all graph)
  /\ NoDup (SubGraphEntity.subgraphs_seen w ++ SubGraphEntity.to_visit w)
  /\ Permutation
       (SubGraphEntity.subgraphs_seen w ++ SubGraphEntity.to_visit w)
       (set_of (get_depends_on_package_names graph
                  (SubGraphEntity.subgraph_name w)))
  /\ exists history,
       map factor_name history = SubGraphEntity.subgraphs_seen w
       /\ SubGraphEntity.subgraph_size w = factors_product history 1
       /\ Forall (read_before graph session
                              (SubGraphEntity.subgraph_name w) k) history.

(** Before its [k]-th iteration is over the call has written a NaN product
    to the row of [name], which the table keeps as NULL. *)
Definition nan_written (graph : GraphDatabase) (session : Session) (k : nat)
    (name : string) : Prop :=
  exists j current w rest acc seen,
    (j < k)%nat
    /\ _fill_graph_score j graph session = Running current (w :: rest)
    /\ SubGraphEntity.subgraph_name w = name
    /\ query_first current name <> None
    /\ visit current (SubGraphEntity.to_visit w)
             (SubGraphEntity.subgraph_size w)
             (SubGraphEntity.subgraphs_seen w) = Exhausted acc seen
    /\ is_nan acc = true.


(** Every row has its version count, and a size that was set before the
    call is set now unless the call has written a NaN product over it. *)
Definition keeps_sizes (graph : GraphDatabase) (before_run : Session)
    (k : nat) (session : Session) (subgraphs : list SubGraphEntity.t)
    : Prop :=
  counted session
  /\ forall name, size_of before_run name <> None ->
                  size_of session name <> None
                  \/ nan_written graph before_run k name.

(** A table left by an earlier run on which the size of [B] is about to
    overflow: [A], which the graph database does not list, has the size
    [2^1023] and four versions; [B] has no version. *)
Definition overflowing : Session :=
  [row "A" 4 (Some 0x1p1023%float); row "B" 0 (Some 5%float);
   row "X" 1 None].

(** [W] depends on [X], [X] on [B] and [B] on the leaf [A], all listed; the
    row of [B] holds an infinite size and the version count 0. *)
Definition graph_WXBA : GraphDatabase :=
  graph_of ["W"; "X"; "B"; "A"]
           [("W", ["X"]); ("X", ["B"]); ("B", ["A"]); ("A", [])].
Definition infinite_B : Session :=
  [row "A" 3 None; row "B" 0 (Some infinity); row "X" 1 None;
   row "W" 1 None].

(** ** The table: reading after writing *)

Section Table.

Lemma query_first_set_other (session : Session) (name other : string)
    (value : option float) :
  name <> other ->
  query_first (update_subgraph_size session name value) other
  = query_first session other.
Proof.
  intros Hne. induction session as [|r rows IH]; simpl; [reflexivity|].
  destruct (String.eqb_spec (Package.package_name r) name) as [E|E]; simpl.
  - destruct (String.eqb_spec (Package.package_name r) other) as [E'|E'];
      [congruence | reflexivity].
  - rewrite IH. reflexivity.
Qed.

Lemma query_first_set_same (session : Session) (name : string)
    (value : option float) :
  query_first (update_subgraph_size session name value) name
  = option_map
      (fun e => Package.Build (Package.package_name e)
                              (Package.version_count e) value)
      (query_first session name).
Proof.
  induction session as [|r rows IH]; simpl; [reflexivity|].
  destruct (String.eqb_spec (Package.package_name r) name) as [E|E]; simpl.
  - rewrite E, String.eqb_refl. reflexivity.
  - destruct (String.eqb_spec (Package.package_name r) name); [contradiction|].
    exact IH.
Qed.

(** A write never adds or removes a row. *)
Lemma query_first_set_none (session : Session) (name other : string)
    (value : option float) :
  query_first (update_subgraph_size session name value) other = None
  <-> query_first session other = None.
Proof.
  destruct (string_dec name other) as [->|Hne].
  - rewrite query_first_set_same.
    destruct (query_first session other); simpl; split; congruence.
  - rewrite query_first_set_other by assumption. reflexivity.
Qed.

Lemma size_of_set_other (session : Session) (name other : string)
    (value : option float) :
  name <> other ->
  size_of (update_subgraph_size session name value) other
  = size_of session other.
Proof.
  intros Hne. unfold size_of. rewrite query_first_set_other by assumption.
  reflexivity.
Qed.

Lemma size_of_set_same (session : Session) (name : string)
    (value : option float) :
  query_first session name <> None ->
  size_of (update_subgraph_size session name value) name = value.
Proof.
  intros Hsome. unfold size_of. rewrite query_first_set_same.
  destruct (query_first session name); [reflexivity | contradiction].
Qed.

(** A second write to the same row replaces the first. *)
Lemma update_subgraph_size_twice (session : Session) (name : string)
    (v1 v2 : option float) :
  update_subgraph_size (update_subgraph_size session name v1) name v2
  = update_subgraph_size session name v2.
Proof.
  induction session as [|r rows IH]; simpl; [reflexivity|].
  destruct (String.eqb (Package.package_name r) name) eqn:E; simpl.
  - rewrite E. reflexivity.
  - rewrite E, IH. reflexivity.
Qed.

End Table.

(** ** The visiting loop *)

Lemma visit_exhausted (session : Session) (size : string -> float)
    (count : string -> Z) (pending : list string) :
  (forall d, In d pending -> foldable session d (size d) (count d)) ->
  forall acc seen,
    visit session pending acc seen
    = Exhausted (product size count pending acc)
                (fold_left set_add pending seen).
Proof.
  induction pending as [|d pending IH]; intros Hall acc seen; simpl.
  - reflexivity.
  - destruct (Hall d (or_introl eq_refl)) as (entry & -> & -> & ->).
    apply IH. intros d' Hin. apply Hall. right. exact Hin.
Qed.

(** The loop reads the table only at the names it visits. *)
Lemma visit_ext (s1 s2 : Session) (pending : list string) :
  (forall d, In d pending -> query_first s1 d = query_first s2 d) ->
  forall acc seen, visit s1 pending acc seen = visit s2 pending acc seen.
Proof.
  induction pending as [|d pending IH]; intros Hsame acc seen; simpl.
  - reflexivity.
  - rewrite (Hsame d (or_introl eq_refl)).
    destruct (query_first s2 d) as [entry|]; [|reflexivity].
    destruct (Package.subgraph_size entry); [|reflexivity].
    destruct (Package.version_count entry); [|reflexivity].
    apply IH. intros d' Hin. apply Hsame. right. exact Hin.
Qed.

(** ** One iteration of the [while] loop *)

Lemma process_exhausted (session : Session) (subgraph : SubGraphEntity.t)
    (size : string -> float) (count : string -> Z) :
  (forall d, In d (SubGraphEntity.to_visit subgraph) ->
             foldable session d (size d) (count d)) ->
  query_first session (SubGraphEntity.subgraph_name subgraph) <> None ->
  process session subgraph
  = Some (set_subgraph_size session (SubGraphEntity.subgraph_name subgraph)
            (PyFloat (product size count (SubGraphEntity.to_visit subgraph)
                              (SubGraphEntity.subgraph_size subgraph))), []).
Proof.
  intros Hall Hrow. unfold process.
  rewrite (visit_exhausted session size count _ Hall).
  destruct (query_first session (SubGraphEntity.subgraph_name subgraph));
    [reflexivity | contradiction].
Qed.

(** ** How the visiting loop stops *)

Lemma visit_app (session : Session) (size : string -> float)
    (count : string -> Z) (before pending : list string) :
  (forall d, In d before -> foldable session d (size d) (count d)) ->
  forall acc seen,
    visit session (before ++ pending) acc seen
    = visit session pending (product size count before acc)
            (fold_left set_add before seen).
Proof.
  induction before as [|d before IH]; intros Hall acc seen; simpl.
  - reflexivity.
  - destruct (Hall d (or_introl eq_refl)) as (entry & -> & -> & ->).
    apply IH. intros d' Hin. apply Hall. right. exact Hin.
Qed.


Lemma set_contains_In (s : list string) (x : string) :
  set_contains s x = true <-> In x s.
Proof.
  unfold set_contains. rewrite existsb_exists. split.
  - intros (y & Hin & Heq). apply String.eqb_eq in Heq. subst. exact Hin.
  - intros Hin. exists x. split; [exact Hin | apply String.eqb_refl].
Qed.

Lemma set_add_In (s : list string) (x y : string) :
  In y (set_add s x) <-> In y s \/ y = x.
Proof.
  unfold set_add. destruct (set_contains s x) eqn:Hc.
  - apply set_contains_In in Hc. split; [tauto|]. intros [H| ->]; assumption.
  - rewrite in_app_iff. simpl. intuition congruence.
Qed.

Lemma set_isub_In (s t : list string) (x : string) :
  In x (set_isub s t) <-> In x s /\ ~ In x t.
Proof.
  unfold set_isub. rewrite filter_In, negb_true_iff.
  rewrite <- (set_contains_In t x). destruct (set_contains t x).
  - split; intros [H1 H2]; [discriminate | exfalso; apply H2; reflexivity].
  - split; intros [H1 H2]; split; auto; discriminate.
Qed.


Lemma process_processed (session : Session) (subgraph : SubGraphEntity.t)
    (session' : Session) (again : list SubGraphEntity.t) :
  process session subgraph = Some (session', again) ->
  processed session subgraph session' again.
Proof.
  unfold process.
  destruct (visit session (SubGraphEntity.to_visit subgraph)
                  (SubGraphEntity.subgraph_size subgraph)
                  (SubGraphEntity.subgraphs_seen subgraph))
    as [acc seen|acc seen|acc seen|] eqn:Hv.
  - destruct (query_first session (SubGraphEntity.subgraph_name subgraph))
      eqn:Hq; intros [= <- <-].
    + eapply processed_scored; [eassumption | rewrite Hq; discriminate].
    + eapply processed_no_subject; eassumption.
  - intros [= <- <-]. eapply processed_dropped; eassumption.
  - intros [= <- <-]. eapply processed_rescheduled; eassumption.
  - discriminate.
Qed.

(** The second entity that line 137 appends for a package with
    dependencies repeats the write of the first: when an entity has written
    the size of its package, which is not among its own dependencies, an
    entity equal to it writes the same value to the same row. *)
Lemma duplicate_entity_writes_same (session session' : Session)
    (subgraph : SubGraphEntity.t) :
  ~ In (SubGraphEntity.subgraph_name subgraph)
       (SubGraphEntity.to_visit subgraph) ->
  process session subgraph = Some (session', []) ->
  process session' subgraph = Some (session', []).
Proof.
  intros Hself Hp. pose proof (process_processed _ _ _ _ Hp) as Hcase.
  inversion Hcase as [acc seen Hv Hrow Hs|acc seen Hv Hrow Hs|acc seen Hv Hs|];
    subst; try exact Hp.
  unfold process, set_subgraph_size. cbn [committed].
  rewrite (visit_ext _ session (SubGraphEntity.to_visit subgraph)), Hv.
  - rewrite update_subgraph_size_twice.
    destruct (query_first
                (update_subgraph_size session
                   (SubGraphEntity.subgraph_name subgraph) (stored acc))
                (SubGraphEntity.subgraph_name subgraph)) eqn:Hq;
      [reflexivity|].
    apply query_first_set_none in Hq. contradiction.
  - intros d Hin. apply query_first_set_other. intros Heq.
    apply Hself. rewrite Heq. exact Hin.
Qed.

(** ** Invariants of the two loops *)

Section Invariants.

Variable Inv : Session -> list SubGraphEntity.t -> Prop.

(** An invariant kept by every iteration that does not raise holds in
    whatever state the loop is found. *)
Lemma drain_invariant :
  (forall session subgraph rest session' again,
      Inv session (subgraph :: rest) ->
      process session subgraph = Some (session', again) ->
      Inv session' (rest ++ again)) ->
  forall fuel session subgraphs,
    Inv session subgraphs ->
    match drain fuel session subgraphs with
    | Finished session' => Inv session' []
    | Running session' subgraphs' => Inv session' subgraphs'
    | Crashed => True
    end.
Proof.
  intros Hstep. induction fuel as [|fuel IH]; intros session subgraphs Hinv.
  - destruct subgraphs; simpl; exact Hinv.
  - destruct subgraphs as [|subgraph rest]; simpl; [exact Hinv|].
    destruct (process session subgraph) as [[session' again]|] eqn:Hp;
      [|exact I].
    apply IH. eapply Hstep; eassumption.
Qed.

(** If the invariant also rules the [TypeError] out, the loop never
    raises. *)
Lemma drain_invariant_safe :
  (forall session subgraph rest,
      Inv session (subgraph :: rest) ->
      exists session' again,
        process session subgraph = Some (session', again)
        /\ Inv session' (rest ++ again)) ->
  forall fuel session subgraphs,
    Inv session subgraphs ->
    match drain fuel session subgraphs with
    | Finished session' => Inv session' []
    | Running session' subgraphs' => Inv session' subgraphs'
    | Crashed => False
    end.
Proof.
  intros Hstep. induction fuel as [|fuel IH]; intros session subgraphs Hinv.
  - destruct subgraphs; simpl; exact Hinv.
  - destruct subgraphs as [|subgraph rest]; simpl; [exact Hinv|].
    destruct (Hstep _ _ _ Hinv) as (session' & again & -> & Hinv').
    apply IH. exact Hinv'.
Qed.

(** The same for the seeding walk. *)
Lemma seed_invariant (graph : GraphDatabase) :
  (forall name session subgraphs,
      In name (get_python_package_version_names_all graph) ->
      Inv session subgraphs ->
      Inv (fst (seed_package graph name (session, subgraphs)))
          (snd (seed_package graph name (session, subgraphs)))) ->
  forall session,
    Inv session [] ->
    Inv (fst (seed graph session)) (snd (seed graph session)).
Proof.
  intros Hstep session. unfold seed.
  generalize (@nil SubGraphEntity.t) as subgraphs.
  revert session Hstep.
  induction (get_python_package_version_names_all graph) as [|name names IH];
    intros session Hstep subgraphs Hinv; cbn [fold_left].
  - exact Hinv.
  - specialize (Hstep name session subgraphs (or_introl eq_refl) Hinv) as H1.
    destruct (seed_package graph name (session, subgraphs))
      as [session1 subgraphs1].
    apply IH; [|exact H1].
    intros n s q Hin. apply Hstep. right. exact Hin.
Qed.

End Invariants.

(** ** The [TypeError] of line 153 *)

Lemma visit_type_error (session : Session) (size : string -> float)
    (count : string -> Z) (before after : list string) (d : string)
    (entry : Package.t) (s : float) :
  (forall d', In d' before -> foldable session d' (size d') (count d')) ->
  query_first session d = Some entry ->
  Package.subgraph_size entry = Some s ->
  Package.version_count entry = None ->
  forall acc seen, visit session (before ++ d :: after) acc seen = TypeError.
Proof.
  intros Hall Hq Hs Hc acc seen.
  rewrite (visit_app session size count before _ Hall).
  simpl. rewrite Hq, Hs, Hc. reflexivity.
Qed.

Lemma visit_total (session : Session) (pending : list string) :
  (forall d entry, In d pending -> query_first session d = Some entry ->
                   Package.subgraph_size entry <> None ->
                   Package.version_count entry <> None) ->
  forall acc seen, visit session pending acc seen <> TypeError.
Proof.
  induction pending as [|d pending IH]; intros Hpre acc seen; simpl.
  - discriminate.
  - destruct (query_first session d) as [entry|] eqn:Hq; [|discriminate].
    destruct (Package.subgraph_size entry) as [s|] eqn:Hs; [|discriminate].
    destruct (Package.version_count entry) as [c|] eqn:Hc.
    + apply IH. intros d' e' Hin. apply Hpre. right. exact Hin.
    + exfalso. apply (Hpre d entry (or_introl eq_refl) Hq).
      * rewrite Hs. discriminate.
      * exact Hc.
Qed.

Lemma process_total (session : Session) (subgraph : SubGraphEntity.t) :
  (forall d entry, In d (SubGraphEntity.to_visit subgraph) ->
                   query_first session d = Some entry ->
                   Package.subgraph_size entry <> None ->
                   Package.version_count entry <> None) ->
  exists session' again, process session subgraph = Some (session', again).
Proof.
  intros Hpre. unfold process.
  pose proof (visit_total session _ Hpre
                (SubGraphEntity.subgraph_size subgraph)
                (SubGraphEntity.subgraphs_seen subgraph)) as Hv.
  destruct (visit session (SubGraphEntity.to_visit subgraph)
                  (SubGraphEntity.subgraph_size subgraph)
                  (SubGraphEntity.subgraphs_seen subgraph));
    [ destruct (query_first session (SubGraphEntity.subgraph_name subgraph))
    | | | exfalso; apply Hv; reflexivity ];
    eexists; eexists; reflexivity.
Qed.

(** C10: in one iteration of the [while] loop on [subgraph], if the visit
    reaches a dependency whose row has [subgraph_size] set and
    [version_count] NULL (the dependencies iterated before it were folded
    in), the multiplication of line 153 raises and the exception leaves the
    loop; if every row of a dependency in [to_visit] that has
    [subgraph_size] set also has [version_count] set, the iteration does not
    raise. *)
Theorem fold_raises_only_without_count (session : Session)
    (subgraph : SubGraphEntity.t) (rest : list SubGraphEntity.t) (fuel : nat) :
  (forall before d after size count entry s,
      SubGraphEntity.to_visit subgraph = before ++ d :: after ->
      (forall d', In d' before -> foldable session d' (size d') (count d')) ->
      query_first session d = Some entry ->
      Package.subgraph_size entry = Some s ->
      Package.version_count entry = None ->
      process session subgraph = None
      /\ drain (S fuel) session (subgraph :: rest) = Crashed)
  /\ ((forall d entry, In d (SubGraphEntity.to_visit subgraph) ->
                       query_first session d = Some entry ->
                       Package.subgraph_size entry <> None ->
                       Package.version_count entry <> None) ->
      exists session' again,
        process session subgraph = Some (session', again)
        /\ drain (S fuel) session (subgraph :: rest)
           = drain fuel session' (rest ++ again)).
Proof.
  split.
  - intros before d after size count entry s Htv Hall Hq Hs Hc.
    assert (Hp : process session subgraph = None).
    { unfold process. rewrite Htv.
      rewrite (visit_type_error session size count before after d entry s
                 Hall Hq Hs Hc). reflexivity. }
    split; [exact Hp|]. simpl. rewrite Hp. reflexivity.
  - intros Hpre.
    destruct (process_total session subgraph Hpre) as (session' & again & Hp).
    exists session', again. split; [exact Hp|]. simpl. rewrite Hp. reflexivity.
Qed.

Lemma fold_raises_only_without_count_witness :
  (process uncounted (SubGraphEntity.make "P" ["D"]) = None
   /\ drain 1 uncounted [SubGraphEntity.make "P" ["D"]] = Crashed)
  /\ (exists session' again,
        process seeded_AB (SubGraphEntity.make "B" ["A"])
        = Some (session', again)
        /\ drain 1 seeded_AB [SubGraphEntity.make "B" ["A"]]
           = drain 0 session' ([] ++ again)).
Proof.
  split.
  - apply (proj1 (fold_raises_only_without_count uncounted
                    (SubGraphEntity.make "P" ["D"]) [] 0)
             [] "D" [] (fun _ => 1%float) (fun _ => 1%Z)
             (Package.Build "D" None (Some 2%float)) 2%float);
      try reflexivity.
    intros d' [].
  - apply (proj2 (fold_raises_only_without_count seeded_AB
                    (SubGraphEntity.make "B" ["A"]) [] 0)).
    intros d entry [<-|[]] [= <-] _. discriminate.
Defined.

(** ** A dependency without a row *)

Lemma set_of_acc_In (l acc : list string) (x : string) :
  In x (fold_left set_add l acc) <-> In x acc \/ In x l.
Proof.
  revert acc. induction l as [|y l IH]; intros acc; simpl.
  - tauto.
  - rewrite IH, set_add_In. intuition congruence.
Qed.

Lemma set_of_In (l : list string) (x : string) : In x (set_of l) <-> In x l.
Proof. unfold set_of. rewrite set_of_acc_In. simpl. tauto. Qed.


Section MissingDependency.

Variables (name m : string) (before_run : Session).



End MissingDependency.




(** ** Entities that wait for each other *)

Lemma set_isub_nil (s : list string) : set_isub s [] = s.
Proof.
  unfold set_isub. induction s as [|x s IH]; simpl; [reflexivity|].
  f_equal. exact IH.
Qed.

Lemma process_blocked (session : Session) (w : SubGraphEntity.t) :
  blocked session w -> process session w = Some (session, [w]).
Proof.
  intros (Hseen & d & pending & entry & Htv & Hq & Hs).
  unfold process. rewrite Htv, Hseen. simpl. rewrite Hq, Hs.
  rewrite set_isub_nil. destruct w; simpl in *. subst. reflexivity.
Qed.

Lemma drain_blocked (session : Session) (start : list SubGraphEntity.t) :
  start <> [] ->
  Forall (blocked session) start ->
  forall fuel, exists subgraphs,
    drain fuel session start = Running session subgraphs
    /\ subgraphs <> []
    /\ Permutation start subgraphs
    /\ Forall (blocked session) subgraphs.
Proof.
  intros Hne Hall fuel.
  pose proof (drain_invariant_safe
                (fun s q => s = session /\ q <> [] /\ Permutation start q
                            /\ Forall (blocked session) q)) as Hinv.
  cbv beta in Hinv.
  assert (Hstep : forall s subgraph rest,
             s = session /\ subgraph :: rest <> []
             /\ Permutation start (subgraph :: rest)
             /\ Forall (blocked session) (subgraph :: rest) ->
             exists s' again,
               process s subgraph = Some (s', again)
               /\ (s' = session /\ rest ++ again <> []
                   /\ Permutation start (rest ++ again)
                   /\ Forall (blocked session) (rest ++ again))).
  { intros s subgraph rest (-> & _ & Hperm & Hbl).
    inversion Hbl as [|? ? Hw Hrest]; subst.
    exists session, [subgraph]. split; [apply process_blocked; exact Hw|].
    split; [reflexivity|]. split; [destruct rest; discriminate|].
    split.
    - rewrite Hperm. apply Permutation_cons_append.
    - apply Forall_app. split; [exact Hrest|].
      constructor; [exact Hw | constructor]. }
  specialize (Hinv Hstep fuel session start
                (conj eq_refl (conj Hne (conj (Permutation_refl _) Hall)))).
  destruct (drain fuel session start) as [s'| |s' q'].
  - destruct Hinv as (_ & Hnil & _). exfalso. apply Hnil. reflexivity.
  - destruct Hinv.
  - destruct Hinv as (-> & Hq & Hperm & Hbl). exists q'.
    repeat split; assumption.
Qed.

(** C8: for the cycle [C -> D -> C], in either order of enumeration, with a
    row for [C] and a row for [D] whose [subgraph_size] is NULL: after any
    number of iterations of the [while] loop no exception has been raised,
    the table is the one the call started with (so neither size is set), and
    the deque is not empty: it holds the entities the seeding walk appended,
    each of which is appended again whenever it is popped. *)
Theorem cycle_circulates_forever (names : list string) (session : Session)
    (fuel : nat) :
  names = ["C"; "D"] \/ names = ["D"; "C"] ->
  (exists entry, query_first session "C" = Some entry
                 /\ Package.subgraph_size entry = None) ->
  (exists entry, query_first session "D" = Some entry
                 /\ Package.subgraph_size entry = None) ->
  exists subgraphs,
    _fill_graph_score fuel (graph_cycle names) session
    = Running session subgraphs
    /\ size_of session "C" = None /\ size_of session "D" = None
    /\ subgraphs <> []
    /\ Permutation (snd (seed (graph_cycle names) session)) subgraphs
    /\ Forall (fun w => process session w = Some (session, [w])) subgraphs.
Proof.
  intros Hnames (eC & HqC & HsC) (eD & HqD & HsD).
  assert (HbC : blocked session (SubGraphEntity.make "C" ["D"])).
  { split; [reflexivity|]. exists "D", [], eD. auto. }
  assert (HbD : blocked session (SubGraphEntity.make "D" ["C"])).
  { split; [reflexivity|]. exists "C", [], eC. auto. }
  assert (Hseed : exists start,
             seed (graph_cycle names) session = (session, start)
             /\ start <> [] /\ Forall (blocked session) start).
  { destruct Hnames as [-> | ->]; eexists; (split; [reflexivity|]);
      (split; [discriminate|]);
      repeat (apply Forall_cons; [assumption|]); apply Forall_nil. }
  destruct Hseed as (start & Hseed & Hne & Hall).
  destruct (drain_blocked session start Hne Hall fuel)
    as (subgraphs & Hrun & Hne' & Hperm & Hbl).
  exists subgraphs. unfold _fill_graph_score. rewrite Hseed. simpl.
  split; [exact Hrun|].
  split; [unfold size_of; rewrite HqC; exact HsC|].
  split; [unfold size_of; rewrite HqD; exact HsD|].
  split; [exact Hne'|]. split; [exact Hperm|].
  eapply Forall_impl; [|exact Hbl]. intros w. apply process_blocked.
Qed.

Lemma cycle_circulates_forever_witness :
  exists subgraphs,
    _fill_graph_score 7 (graph_cycle ["C"; "D"]) unscored_cycle
    = Running unscored_cycle subgraphs
    /\ size_of unscored_cycle "C" = None /\ size_of unscored_cycle "D" = None
    /\ subgraphs <> []
    /\ Permutation (snd (seed (graph_cycle ["C"; "D"]) unscored_cycle))
                   subgraphs
    /\ Forall (fun w => process unscored_cycle w = Some (unscored_cycle, [w]))
              subgraphs.
Proof.
  apply (cycle_circulates_forever ["C"; "D"] unscored_cycle 7).
  - left. reflexivity.
  - exists (row "C" 1 None). split; reflexivity.
  - exists (row "D" 1 None). split; reflexivity.
Defined.

(** ** The order of iteration *)

(** Multiplication of binary64 values commutes and has 1.0 as its unit; it
    is not associative, since every product is rounded. *)
Lemma SFmul_comm (x y : spec_float) : SF64mul x y = SF64mul y x.
Proof.
  unfold SF64mul, SFmul.
  destruct x as [sx|sx| |sx mx ex], y as [sy|sy| |sy my ey]; simpl;
    try rewrite (xorb_comm sx sy); try reflexivity.
  rewrite (Pos.mul_comm mx my), (Z.add_comm ex ey). reflexivity.
Qed.

Lemma float_mul_comm (x y : float) : (x * y = y * x)%float.
Proof. apply Prim2SF_inj. rewrite !mul_spec. apply SFmul_comm. Qed.

Lemma SFmul_one_l (x : spec_float) :
  valid_binary x = true ->
  SF64mul (S754_finite false 4503599627370496 (-52)) x = x.
Proof.
  destruct x as [s|s| |s m e]; intros Hv; try reflexivity;
    try (destruct s; reflexivity).
  unfold SF64mul, SFmul.
  simpl in Hv. unfold bounded, canonical_mantissa in Hv.
  apply andb_prop in Hv. destruct Hv as [Hc He].
  apply Z.eqb_eq in Hc.
  cbn [xorb]. unfold binary_round_aux. unfold shr_fexp at 1.
  cbn [Pos.mul Zdigits2 digits2_pos].
  rewrite !Pos2Z.inj_succ.
  match goal with |- context [fexp prec emax ?a] =>
    replace a with (Z.pos (digits2_pos m) + e)%Z by lia end.
  rewrite Hc.
  replace (e - (-52 + e))%Z with 52%Z by lia.
  cbn [shr shr_record_of_loc iter_pos shr_1 orb].
  cbn [shr_m loc_of_shr_record round_nearest_even].
  unfold shr_fexp. cbn [Zdigits2].
  replace (-52 + e + 52)%Z with e by lia.
  rewrite Hc, Z.sub_diag.
  cbn [shr shr_record_of_loc shr_m].
  rewrite He. reflexivity.
Qed.

Lemma float_mul_one_l (x : float) : (1 * x = x)%float.
Proof.
  apply Prim2SF_inj. rewrite mul_spec.
  change (Prim2SF 1) with (S754_finite false 4503599627370496 (-52)).
  apply SFmul_one_l. apply Prim2SF_valid.
Qed.

Lemma product_two_orders (size : string -> float) (count : string -> Z)
    (order1 order2 : list string) :
  Permutation order1 order2 ->
  (List.length order1 <= 2)%nat ->
  product size count order1 1 = product size count order2 1.
Proof.
  intros Hperm Hlen.
  destruct order1 as [|a [|b [|c order1]]].
  - apply Permutation_nil in Hperm. subst. reflexivity.
  - apply Permutation_length_1_inv in Hperm. subst. reflexivity.
  - apply Permutation_length_2_inv in Hperm. destruct Hperm as [-> | ->].
    + reflexivity.
    + unfold product. simpl. rewrite !float_mul_one_l. apply float_mul_comm.
  - simpl in Hlen. lia.
Qed.

Lemma process_exhausted_any (session : Session) (subgraph : SubGraphEntity.t)
    (size : string -> float) (count : string -> Z) :
  (forall d, In d (SubGraphEntity.to_visit subgraph) ->
             foldable session d (size d) (count d)) ->
  process session subgraph
  = match query_first session (SubGraphEntity.subgraph_name subgraph) with
    | None => Some (session, [])
    | Some _ =>
        Some (set_subgraph_size session
                (SubGraphEntity.subgraph_name subgraph)
                (PyFloat (product size count (SubGraphEntity.to_visit subgraph)
                                  (SubGraphEntity.subgraph_size subgraph))),
              [])
    end.
Proof.
  intros Hall. unfold process.
  rewrite (visit_exhausted session size count _ Hall). reflexivity.
Qed.

(** C9 (as amended): for an entity that has folded nothing in yet
    (accumulator [1.0]) and whose pending set has at most two dependencies,
    each with a row whose two columns are set, the iteration of the [while]
    loop persists the same value, and leaves the same table and deque, for
    any two orders in which the set iterates.  With three or more
    dependencies the persisted value is the left-to-right product in the
    order of iteration, and two orders can round differently. *)
Theorem at_most_two_orders_agree (session : Session) (name : string)
    (order1 order2 : list string) (rest : list SubGraphEntity.t)
    (size : string -> float) (count : string -> Z) (fuel : nat) :
  Permutation order1 order2 ->
  (List.length order1 <= 2)%nat ->
  (forall d, In d order1 -> foldable session d (size d) (count d)) ->
  product size count order1 1 = product size count order2 1
  /\ process session (SubGraphEntity.make name order1)
     = process session (SubGraphEntity.make name order2)
  /\ drain (S fuel) session (SubGraphEntity.make name order1 :: rest)
     = drain (S fuel) session (SubGraphEntity.make name order2 :: rest).
Proof.
  intros Hperm Hlen Hall.
  pose proof (product_two_orders size count order1 order2 Hperm Hlen) as Hprod.
  assert (Hp : process session (SubGraphEntity.make name order1)
               = process session (SubGraphEntity.make name order2)).
  { rewrite (process_exhausted_any session _ size count) by exact Hall.
    rewrite (process_exhausted_any session _ size count).
    - simpl. rewrite Hprod. reflexivity.
    - simpl. intros d Hin. apply Hall.
      apply (Permutation_in d (Permutation_sym Hperm) Hin). }
  split; [exact Hprod|]. split; [exact Hp|].
  simpl. rewrite Hp. reflexivity.
Qed.

Lemma at_most_two_orders_agree_witness :
  product (fun _ => 3486784401%float) (fun _ => 3%Z) ["E"; "F"] 1
  = product (fun _ => 3486784401%float) (fun _ => 3%Z) ["F"; "E"] 1
  /\ process rounding (SubGraphEntity.make "P" ["E"; "F"])
     = process rounding (SubGraphEntity.make "P" ["F"; "E"])
  /\ drain 1 rounding [SubGraphEntity.make "P" ["E"; "F"]]
     = drain 1 rounding [SubGraphEntity.make "P" ["F"; "E"]].
Proof.
  apply (at_most_two_orders_agree rounding "P" ["E"; "F"] ["F"; "E"] []
           (fun _ => 3486784401%float) (fun _ => 3%Z) 0).
  - apply perm_swap.
  - simpl. lia.
  - intros d [<-|[<-|[]]]; eexists; repeat split; reflexivity.
Defined.

(** C9 (as stated) fails on [rounding]: the three dependencies of [P] have
    both columns set, and the same table gives 6.489662420352849e+32
    (0x1.fff1b059cec7bp+108) when the set iterates [E, F, G] and
    6.4896624203528486e+32 (0x1.fff1b059cec7ap+108) when it iterates
    [G, F, E]. *)
Lemma at_most_two_orders_agree_counterexample :
  Permutation ["E"; "F"; "G"] ["G"; "F"; "E"]
  /\ (exists after,
        process rounding (SubGraphEntity.make "P" ["E"; "F"; "G"])
        = Some (after, [])
        /\ size_of after "P" = Some 0x1.fff1b059cec7bp+108%float)
  /\ (exists after,
        process rounding (SubGraphEntity.make "P" ["G"; "F"; "E"])
        = Some (after, [])
        /\ size_of after "P" = Some 0x1.fff1b059cec7ap+108%float)
  /\ 0x1.fff1b059cec7bp+108%float <> 0x1.fff1b059cec7ap+108%float.
Proof.
  split; [|split; [|split]].
  - apply Permutation_rev with (l := ["E"; "F"; "G"]).
  - eexists. split; reflexivity.
  - eexists. split; reflexivity.
  - intro H. discriminate H.
Qed.

(** ** Running the function again *)

Lemma counted_query (session : Session) (name : string) (entry : Package.t) :
  counted session -> query_first session name = Some entry ->
  Package.version_count entry <> None.
Proof.
  intros Hc. induction Hc as [|r rows Hr _ IH]; simpl; [discriminate|].
  destruct (String.eqb (Package.package_name r) name).
  - intros [= <-]. exact Hr.
  - exact IH.
Qed.

Lemma counted_set (session : Session) (name : string) (value : option float) :
  counted session -> counted (update_subgraph_size session name value).
Proof.
  intros Hc. induction Hc as [|r rows Hr Hrows IH]; simpl; [constructor|].
  destruct (String.eqb (Package.package_name r) name).
  - constructor; [exact Hr | exact Hrows].
  - constructor; [exact Hr | exact IH].
Qed.

(** The same on a table without any size, where the first call itself
    rewrites the size of the leaf [A] from 3 to 1 after [C] has used it:
    the first call leaves [X] at [(9 * 2) * (1 * 3) = 54], the second one
    at [(9 * 2) * (3 * 3) = 162]. *)
Lemma second_run_changes_fresh_table :
  let after1 := [row "A" 3 (Some 1%float); row "C" 2 (Some 9%float);
                 row "X" 1 (Some 54%float)] in
  let after2 := [row "A" 3 (Some 1%float); row "C" 2 (Some 9%float);
                 row "X" 1 (Some 162%float)] in
  _fill_graph_score 9 graph_XCA unscored_XCA = Finished after1
  /\ _fill_graph_score 9 graph_XCA after1 = Finished after2.
Proof.
  cbv zeta. split; reflexivity.
Qed.

(** ** What the seeding walk appends *)

Lemma seed_package_subgraphs (graph : GraphDatabase) (p : string)
    (session : Session) (subgraphs : list SubGraphEntity.t) :
  snd (seed_package graph p (session, subgraphs))
  = subgraphs ++ seeded_for graph p.
Proof.
  unfold seed_package, seeded_for, set_subgraph_size.
  destruct (get_depends_on_package_names graph p) as [|d deps].
  - destruct (query_first session p); reflexivity.
  - simpl. rewrite <- app_assoc. reflexivity.
Qed.

Lemma seed_subgraphs (graph : GraphDatabase) (session : Session) :
  snd (seed graph session)
  = flat_map (seeded_for graph) (get_python_package_version_names_all graph).
Proof.
  unfold seed.
  change (flat_map (seeded_for graph)
            (get_python_package_version_names_all graph))
    with ([] ++ flat_map (seeded_for graph)
                  (get_python_package_version_names_all graph)).
  generalize (@nil SubGraphEntity.t) as subgraphs. revert session.
  induction (get_python_package_version_names_all graph) as [|p names IH];
    intros session subgraphs; cbn [fold_left flat_map].
  - rewrite app_nil_r. reflexivity.
  - pose proof (seed_package_subgraphs graph p session subgraphs) as Hp.
    destruct (seed_package graph p (session, subgraphs)) as [session1 q1].
    simpl in Hp. subst q1. rewrite IH, <- app_assoc. reflexivity.
Qed.

Lemma seeded_for_name (graph : GraphDatabase) (p : string)
    (w : SubGraphEntity.t) :
  In w (seeded_for graph p) ->
  w = SubGraphEntity.make p (set_of (get_depends_on_package_names graph p)).
Proof.
  unfold seeded_for.
  destruct (get_depends_on_package_names graph p); simpl; intuition.
Qed.

Lemma count_seeded_for (graph : GraphDatabase) (p name : string) :
  count_occ string_dec
    (map SubGraphEntity.subgraph_name (seeded_for graph p)) name
  = if string_dec p name
    then match get_depends_on_package_names graph p with
         | [] => 1%nat
         | _ :: _ => 2%nat
         end
    else 0%nat.
Proof.
  unfold seeded_for.
  destruct (get_depends_on_package_names graph p); simpl;
    destruct (string_dec p name); reflexivity.
Qed.

(** The number of entities appended for [name] is the number of times the
    graph database lists [name], once or twice over. *)
Lemma count_seeded (graph : GraphDatabase) (session : Session) (name : string) :
  count_occ string_dec
    (map SubGraphEntity.subgraph_name (snd (seed graph session))) name
  = (count_occ string_dec (get_python_package_version_names_all graph) name
     * match get_depends_on_package_names graph name with
       | [] => 1
       | _ :: _ => 2
       end)%nat.
Proof.
  rewrite seed_subgraphs.
  induction (get_python_package_version_names_all graph) as [|p names IH].
  - reflexivity.
  - cbn [flat_map]. rewrite map_app, count_occ_app, IH, count_seeded_for.
    cbn [count_occ]. destruct (string_dec p name) as [->|Hne]; lia.
Qed.

(** C5 (not met by the code): the claim asks for one entity per package with
    dependencies and none for a package without.  For a package that the
    graph database lists once, the seeding walk appends two entities when
    it has dependencies (lines 127 and 137) and one when it has none
    (line 127). *)
Theorem seeding_appends_twice (graph : GraphDatabase) (session : Session)
    (name : string) :
  NoDup (get_python_package_version_names_all graph) ->
  In name (get_python_package_version_names_all graph) ->
  count_occ string_dec
    (map SubGraphEntity.subgraph_name (snd (seed graph session))) name
  = match get_depends_on_package_names graph name with
    | [] => 1%nat
    | _ :: _ => 2%nat
    end.
Proof.
  intros Hnodup Hin. rewrite count_seeded.
  rewrite (proj1 (NoDup_count_occ' string_dec _) Hnodup name Hin). lia.
Qed.

Lemma seeding_appends_twice_witness :
  count_occ string_dec
    (map SubGraphEntity.subgraph_name
         (snd (seed (graph_of ["A"; "B"] edges_AB) scenario_AB))) "B"
  = match get_depends_on_package_names (graph_of ["A"; "B"] edges_AB) "B" with
    | [] => 1%nat
    | _ :: _ => 2%nat
    end.
Proof.
  apply (seeding_appends_twice (graph_of ["A"; "B"] edges_AB) scenario_AB "B").
  - repeat constructor; simpl; intuition discriminate.
  - simpl. auto.
Defined.

(** ** The entity of a package without dependencies *)

Lemma seed_keeps_rows (graph : GraphDatabase) (session : Session)
    (name : string) :
  query_first session name <> None ->
  query_first (fst (seed graph session)) name <> None.
Proof.
  intros Hrow.
  apply (seed_invariant (fun s _ => query_first s name <> None) graph);
    [|exact Hrow].
  intros p s q _ Hs. unfold seed_package, set_subgraph_size.
  destruct (get_depends_on_package_names graph p); [|exact Hs].
  destruct (query_first s p); [|exact Hs].
  simpl. rewrite query_first_set_none. exact Hs.
Qed.

Lemma leaf_pending_seed (graph : GraphDatabase) (session : Session)
    (name : string) :
  In name (get_python_package_version_names_all graph) ->
  get_depends_on_package_names graph name = [] ->
  query_first session name <> None ->
  leaf_pending name (fst (seed graph session)) (snd (seed graph session)).
Proof.
  intros Hin Hleaf Hrow. split; [apply seed_keeps_rows; exact Hrow|].
  rewrite seed_subgraphs. split.
  - intros w Hw Hname. apply in_flat_map in Hw. destruct Hw as (p & _ & Hw).
    apply seeded_for_name in Hw. subst w. simpl in Hname. subst p.
    rewrite Hleaf. reflexivity.
  - left. exists (SubGraphEntity.make name []). split; [|reflexivity].
    apply in_flat_map. exists name. split; [exact Hin|].
    unfold seeded_for. rewrite Hleaf. left. reflexivity.
Qed.

Lemma leaf_pending_process (name : string) (session : Session)
    (subgraph : SubGraphEntity.t) (rest : list SubGraphEntity.t)
    (session' : Session) (again : list SubGraphEntity.t) :
  leaf_pending name session (subgraph :: rest) ->
  process session subgraph = Some (session', again) ->
  leaf_pending name session' (rest ++ again).
Proof.
  intros (Hrow & Hmade & Hstate) Hp.
  destruct (string_dec (SubGraphEntity.subgraph_name subgraph) name)
    as [Heq|Hne].
  - (* the entity of the leaf: its visit is over at once and 1.0 is written *)
    rewrite (Hmade subgraph (or_introl eq_refl) Heq) in Hp.
    unfold process in Hp. cbn [SubGraphEntity.make SubGraphEntity.to_visit
      SubGraphEntity.subgraph_size SubGraphEntity.subgraphs_seen
      SubGraphEntity.subgraph_name visit] in Hp.
    destruct (query_first session name) eqn:Hq; [|contradiction].
    change (set_subgraph_size session name (PyFloat 1))
      with (update_subgraph_size session name (Some 1%float)) in Hp.
    injection Hp as <- <-. rewrite app_nil_r. split; [|split].
    + rewrite query_first_set_none, Hq. discriminate.
    + intros w Hw. apply Hmade. right. exact Hw.
    + right. apply size_of_set_same. rewrite Hq. discriminate.
  - (* another entity: the row of the leaf is not written *)
    apply process_processed in Hp.
    assert (Hagain : forall w, In w (rest ++ again) ->
                       SubGraphEntity.subgraph_name w = name -> In w rest).
    { intros w Hw Hname. apply in_app_iff in Hw. destruct Hw as [Hw|Hw];
        [exact Hw|].
      destruct Hp; try destruct Hw as [<-|[]]; try destruct Hw.
      simpl in Hname. contradiction. }
    assert (Hrest : (exists w, In w (rest ++ again)
                               /\ SubGraphEntity.subgraph_name w = name)
                    \/ size_of session name = Some 1%float).
    { destruct Hstate as [(w & [<-|Hw] & Hname)|Hsize].
      - contradiction.
      - left. exists w. split; [apply in_app_iff; left; exact Hw|exact Hname].
      - right. exact Hsize. }
    assert (Hmade' : forall w, In w (rest ++ again) ->
                       SubGraphEntity.subgraph_name w = name ->
                       w = SubGraphEntity.make name []).
    { intros w Hw Hname. apply Hmade; [|exact Hname]. right.
      apply Hagain; assumption. }
    destruct Hp as [acc seen Hv Hsub|acc seen Hv Hsub|acc seen Hv|acc seen Hv];
      try (split; [exact Hrow | split; [exact Hmade' | exact Hrest]]).
    split; [rewrite query_first_set_none; exact Hrow|].
    split; [exact Hmade'|].
    rewrite size_of_set_other by exact Hne. exact Hrest.
Qed.

(** C1 (not met by the code): the claim asks for
    [subgraph_size == version_count] on a package without dependencies.
    The seeding walk writes that value (line 134) but has also appended an
    entity for the package (line 127); its visit is empty, so the [else]
    clause writes the entity's initial [1.0] over it (line 161).  Whenever
    the call returns, a listed package without dependencies that has a row
    has size [1.0]. *)
Theorem leaf_finishes_with_one (graph : GraphDatabase) (session : Session)
    (name : string) (fuel : nat) (after : Session) :
  In name (get_python_package_version_names_all graph) ->
  get_depends_on_package_names graph name = [] ->
  query_first session name <> None ->
  _fill_graph_score fuel graph session = Finished after ->
  size_of after name = Some 1%float.
Proof.
  intros Hin Hleaf Hrow Hrun. unfold _fill_graph_score in Hrun.
  pose proof (leaf_pending_seed graph session name Hin Hleaf Hrow) as H1.
  destruct (seed graph session) as [session1 subgraphs1]. simpl in H1.
  pose proof (drain_invariant (leaf_pending name)
                (leaf_pending_process name) fuel session1 subgraphs1 H1) as Hd.
  rewrite Hrun in Hd. destruct Hd as (_ & _ & [(w & [] & _)|Hsize]).
  exact Hsize.
Qed.

Lemma leaf_finishes_with_one_witness :
  _fill_graph_score 1 graph_A unscored_A = Finished [row "A" 3 (Some 1%float)]
  /\ size_of [row "A" 3 (Some 1%float)] "A" = Some 1%float.
Proof.
  split; [reflexivity|].
  apply (leaf_finishes_with_one graph_A unscored_A "A" 1
           [row "A" 3 (Some 1%float)]).
  - simpl. auto.
  - reflexivity.
  - discriminate.
  - reflexivity.
Defined.

(** C3 (not met by the code): the claim asks for [A = 3.0] and [B = 9.0].
    When the graph database lists [A] before [B], the entity of [A] writes
    1.0 over the 3.0 of the seeding walk before [B] reads it, and the call
    returns with [A = 1.0] and [B = 1.0 * 3 = 3.0]; when it lists [B]
    first, [B] reads 3.0 and the call returns with [A = 1.0] and
    [B = 9.0]. *)
Theorem scenario_AB_sizes :
  _fill_graph_score 3 (graph_of ["A"; "B"] edges_AB) scenario_AB
  = Finished [row "A" 3 (Some 1%float); row "B" 2 (Some 3%float)]
  /\ _fill_graph_score 3 (graph_of ["B"; "A"] edges_AB) scenario_AB
     = Finished [row "A" 3 (Some 1%float); row "B" 2 (Some 9%float)].
Proof. split; reflexivity. Qed.

(** C4 (not met by the code): the claim asks that a size, once set, is
    never changed in the same call.  On [graph_A] the seeding walk sets the
    size of [A] to its version count 3.0, and the first iteration of the
    [while] loop writes 1.0 to the same row. *)
Theorem size_set_then_changed :
  seed graph_A unscored_A
  = ([row "A" 3 (Some 3%float)], [SubGraphEntity.make "A" []])
  /\ process [row "A" 3 (Some 3%float)] (SubGraphEntity.make "A" [])
     = Some ([row "A" 3 (Some 1%float)], [])
  /\ _fill_graph_score 1 graph_A unscored_A
     = Finished [row "A" 3 (Some 1%float)]
  /\ 3%float <> 1%float.
Proof.
  repeat split. intro H. discriminate H.
Qed.

(** [set(l)] holds no name twice. *)
Lemma set_add_nodup (s : list string) (x : string) :
  NoDup s -> NoDup (set_add s x).
Proof.
  intros Hnd. unfold set_add. destruct (set_contains s x) eqn:Hc; [exact Hnd|].
  apply (Permutation_NoDup (Permutation_cons_append s x)).
  constructor; [|exact Hnd].
  intros Hin. apply set_contains_In in Hin. congruence.
Qed.

Lemma set_of_nodup (l : list string) : NoDup (set_of l).
Proof.
  unfold set_of. generalize (NoDup_nil string).
  generalize (@nil string) as acc.
  induction l as [|x l IH]; intros acc Hnd; simpl; [exact Hnd|].
  apply IH. apply set_add_nodup. exact Hnd.
Qed.


(** ** The states of a call, one iteration after the other *)

Lemma drain_succ (fuel : nat) :
  forall session subgraphs,
    drain (S fuel) session subgraphs = advance (drain fuel session subgraphs).
Proof.
  induction fuel as [|fuel IH]; intros session subgraphs.
  - destruct subgraphs as [|w rest]; [reflexivity|]. simpl.
    destruct (process session w) as [[session' again]|]; [|reflexivity].
    destruct (rest ++ again); reflexivity.
  - destruct subgraphs as [|w rest]; [reflexivity|].
    change (drain (S (S fuel)) session (w :: rest))
      with (match process session w with
            | None => Crashed
            | Some (session', again) => drain (S fuel) session' (rest ++ again)
            end).
    change (drain (S fuel) session (w :: rest))
      with (match process session w with
            | None => Crashed
            | Some (session', again) => drain fuel session' (rest ++ again)
            end).
    destruct (process session w) as [[session' again]|]; [|reflexivity].
    apply IH.
Qed.

Lemma fill_succ (graph : GraphDatabase) (session : Session) (k : nat) :
  _fill_graph_score (S k) graph session
  = advance (_fill_graph_score k graph session).
Proof.
  unfold _fill_graph_score. destruct (seed graph session). apply drain_succ.
Qed.

Lemma fill_finished_later (graph : GraphDatabase) (session after : Session)
    (k : nat) :
  _fill_graph_score k graph session = Finished after ->
  forall more, _fill_graph_score (k + more) graph session = Finished after.
Proof.
  intros Hk more. induction more as [|more IH].
  - rewrite Nat.add_0_r. exact Hk.
  - rewrite Nat.add_succ_r, fill_succ, IH. reflexivity.
Qed.

Lemma fill_running_not_empty (graph : GraphDatabase) (session : Session)
    (k : nat) (current : Session) :
  _fill_graph_score k graph session <> Running current [].
Proof.
  unfold _fill_graph_score. destruct (seed graph session) as [s q].
  revert s q. induction k as [|k IH]; intros s q.
  - destruct q; discriminate.
  - destruct q as [|w rest]; [discriminate|]. simpl.
    destruct (process s w) as [[s' again]|]; [apply IH | discriminate].
Qed.

Section RunInvariant.

Variables (graph : GraphDatabase) (session : Session).
Variable Inv : nat -> Session -> list SubGraphEntity.t -> Prop.

Hypothesis Inv_later :
  forall k current subgraphs,
    Inv k current subgraphs -> Inv (S k) current subgraphs.
Hypothesis Inv_seeded :
  Inv 0 (fst (seed graph session)) (snd (seed graph session)).

(** An invariant that may speak of the number of iterations made and of
    the states the call went through. *)
Lemma fill_invariant :
  (forall k current subgraph rest current' again,
      _fill_graph_score k graph session = Running current (subgraph :: rest) ->
      Inv k current (subgraph :: rest) ->
      process current subgraph = Some (current', again) ->
      Inv (S k) current' (rest ++ again)) ->
  forall k,
    match _fill_graph_score k graph session with
    | Finished current => Inv k current []
    | Running current subgraphs => Inv k current subgraphs
    | Crashed => True
    end.
Proof.
  intros Hstep. induction k as [|k IH].
  - unfold _fill_graph_score.
    pose proof Inv_seeded as H0.
    destruct (seed graph session) as [s q]. simpl in H0.
    destruct q; exact H0.
  - rewrite fill_succ.
    destruct (_fill_graph_score k graph session) as [s| |s q] eqn:Hk.
    + apply Inv_later. exact IH.
    + exact I.
    + destruct q as [|w rest]; [apply Inv_later; exact IH|]. simpl.
      destruct (process s w) as [[s' again]|] eqn:Hp; [|exact I].
      pose proof (Hstep k s w rest s' again Hk IH Hp) as H1.
      destruct (rest ++ again); exact H1.
Qed.

Lemma fill_invariant_safe :
  (forall k current subgraph rest,
      _fill_graph_score k graph session = Running current (subgraph :: rest) ->
      Inv k current (subgraph :: rest) ->
      exists current' again,
        process current subgraph = Some (current', again)
        /\ Inv (S k) current' (rest ++ again)) ->
  forall k,
    match _fill_graph_score k graph session with
    | Finished current => Inv k current []
    | Running current subgraphs => Inv k current subgraphs
    | Crashed => False
    end.
Proof.
  intros Hstep. induction k as [|k IH].
  - unfold _fill_graph_score.
    pose proof Inv_seeded as H0.
    destruct (seed graph session) as [s q]. simpl in H0.
    destruct q; exact H0.
  - rewrite fill_succ.
    destruct (_fill_graph_score k graph session) as [s| |s q] eqn:Hk.
    + apply Inv_later. exact IH.
    + destruct IH.
    + destruct q as [|w rest]; [apply Inv_later; exact IH|]. simpl.
      destruct (Hstep k s w rest Hk IH) as (s' & again & -> & H1).
      destruct (rest ++ again); exact H1.
Qed.

End RunInvariant.

(** ** The books of an entity *)

Lemma factors_product_app (h1 h2 : list factor) (start : float) :
  factors_product (h1 ++ h2) start
  = factors_product h2 (factors_product h1 start).
Proof. unfold factors_product. apply fold_left_app. Qed.

Lemma set_add_fresh (s : list string) (x : string) :
  ~ In x s -> set_add s x = s ++ [x].
Proof.
  intros Hnot. unfold set_add.
  destruct (set_contains s x) eqn:Hc; [|reflexivity].
  apply set_contains_In in Hc. contradiction.
Qed.

Lemma fold_set_add_fresh (l : list string) :
  forall seen, NoDup (seen ++ l) -> fold_left set_add l seen = seen ++ l.
Proof.
  induction l as [|x l IH]; intros seen Hnd; simpl.
  - rewrite app_nil_r. reflexivity.
  - rewrite set_add_fresh.
    + rewrite IH; rewrite <- app_assoc; [reflexivity | exact Hnd].
    + intros Hin. apply NoDup_remove_2 in Hnd. apply Hnd.
      apply in_app_iff. left. exact Hin.
Qed.

(** What a visit has done when it stops: it has multiplied in, one after
    the other, the dependencies at the head of the set, each with the two
    values of its row. *)
Lemma visit_factors (session : Session) (pending : list string) :
  forall acc seen,
  exists folded rest,
    pending = map factor_name folded ++ rest
    /\ Forall (fun f => foldable session (factor_name f) (factor_size f)
                                 (factor_count f)) folded
    /\ match visit session pending acc seen with
       | Exhausted acc' seen' =>
           rest = []
           /\ acc' = factors_product folded acc
           /\ seen' = fold_left set_add (map factor_name folded) seen
       | Unresolved acc' seen' | Rescheduled acc' seen' =>
           acc' = factors_product folded acc
           /\ seen' = fold_left set_add (map factor_name folded) seen
       | TypeError => True
       end.
Proof.
  induction pending as [|d pending IH]; intros acc seen.
  - exists [], []. repeat split. constructor.
  - cbn [visit].
    destruct (query_first session d) as [entry|] eqn:Hq;
      [|exists [], (d :: pending); repeat split; constructor].
    destruct (Package.subgraph_size entry) as [s|] eqn:Hs;
      [|exists [], (d :: pending); repeat split; constructor].
    destruct (Package.version_count entry) as [c|] eqn:Hc;
      [|exists [], (d :: pending); repeat split; constructor].
    destruct (IH (acc * (s * float_of_int c))%float (set_add seen d))
      as (folded & rest & Hpending & Hfolded & Hv).
    exists ({| factor_name := d; factor_size := s; factor_count := c |}
            :: folded), rest.
    split; [simpl; rewrite Hpending; reflexivity|].
    split; [constructor; [exists entry; auto | exact Hfolded]|].
    exact Hv.
Qed.


Lemma read_before_later (graph : GraphDatabase) (session : Session)
    (name : string) (k : nat) (f : factor) :
  read_before graph session name k f ->
  read_before graph session name (S k) f.
Proof.
  intros (j & current & w & rest & Hj & Hrun & Hname & Hf).
  exists j, current, w, rest. repeat split; try assumption. lia.
Qed.

Lemma accounted_later (graph : GraphDatabase) (session : Session) (k : nat)
    (w : SubGraphEntity.t) :
  accounted graph session k w -> accounted graph session (S k) w.
Proof.
  intros (Hname & Hnd & Hperm & history & Hseen & Hacc & Hread).
  split; [exact Hname|]. split; [exact Hnd|]. split; [exact Hperm|].
  exists history. split; [exact Hseen|]. split; [exact Hacc|].
  eapply Forall_impl; [|exact Hread]. intros f. apply read_before_later.
Qed.

Lemma accounted_seeded (graph : GraphDatabase) (session : Session) :
  Forall (accounted graph session 0) (snd (seed graph session)).
Proof.
  rewrite seed_subgraphs. apply Forall_forall. intros w Hw.
  apply in_flat_map in Hw. destruct Hw as (p & Hp & Hw).
  apply seeded_for_name in Hw. subst w.
  split; [exact Hp|]. simpl.
  split; [apply set_of_nodup|]. split; [apply Permutation_refl|].
  exists []. repeat split. constructor.
Qed.

Lemma accounted_rescheduled (graph : GraphDatabase) (session : Session)
    (k : nat) (current : Session) (w : SubGraphEntity.t)
    (rest : list SubGraphEntity.t) (acc : float) (seen : list string) :
  _fill_graph_score k graph session = Running current (w :: rest) ->
  accounted graph session k w ->
  visit current (SubGraphEntity.to_visit w) (SubGraphEntity.subgraph_size w)
        (SubGraphEntity.subgraphs_seen w) = Rescheduled acc seen ->
  accounted graph session (S k)
    (SubGraphEntity.Build (SubGraphEntity.subgraph_name w) seen
       (set_isub (SubGraphEntity.to_visit w) seen) acc).
Proof.
  intros Hrun (Hname & Hnd & Hperm & history & Hseen & Hacc & Hread) Hv.
  destruct (visit_factors current (SubGraphEntity.to_visit w)
              (SubGraphEntity.subgraph_size w)
              (SubGraphEntity.subgraphs_seen w))
    as (folded & pending & Htv & Hfolded & Hout).
  rewrite Hv in Hout. destruct Hout as [-> Hseen'].
  rewrite Htv, app_assoc in Hnd.
  rewrite (fold_set_add_fresh _ _ (NoDup_app_remove_r _ _ Hnd)) in Hseen'.
  rewrite <- app_assoc, <- Htv in Hnd.
  assert (Hin : forall x,
             In x (seen ++ set_isub (SubGraphEntity.to_visit w) seen)
             <-> In x (SubGraphEntity.subgraphs_seen w
                       ++ SubGraphEntity.to_visit w)).
  { intros x.
    assert (Hfold : In x (map factor_name folded) ->
                    In x (SubGraphEntity.to_visit w)).
    { intros Hx. rewrite Htv. apply in_app_iff. left. exact Hx. }
    rewrite !in_app_iff, set_isub_In. subst seen. rewrite in_app_iff.
    destruct (in_dec string_dec x (SubGraphEntity.subgraphs_seen w));
      destruct (in_dec string_dec x (map factor_name folded)); tauto. }
  assert (Hnd' : NoDup (seen ++ set_isub (SubGraphEntity.to_visit w) seen)).
  { apply NoDup_app.
    - subst seen. rewrite Htv, app_assoc in Hnd.
      exact (NoDup_app_remove_r _ _ Hnd).
    - apply NoDup_filter. exact (NoDup_app_remove_l _ _ Hnd).
    - intros x Hx Hx'. apply set_isub_In in Hx'. exact (proj2 Hx' Hx). }
  split; [exact Hname|]. cbn [SubGraphEntity.subgraph_name
    SubGraphEntity.subgraphs_seen SubGraphEntity.to_visit
    SubGraphEntity.subgraph_size].
  split; [exact Hnd'|].
  split; [rewrite <- Hperm; apply NoDup_Permutation; assumption|].
  exists (history ++ folded).
  split; [rewrite map_app, Hseen, Hseen'; reflexivity|].
  split; [rewrite factors_product_app, <- Hacc; reflexivity|].
  apply Forall_app. split.
  - eapply Forall_impl; [|exact Hread]. intros f. apply read_before_later.
  - eapply Forall_impl; [|exact Hfolded]. intros f Hf.
    exists k, current, w, rest. repeat split; [lia | exact Hrun | exact Hf].
Qed.

(** In whatever state the call is found, the books of every entity of the
    deque are right. *)
Lemma fill_accounted (graph : GraphDatabase) (session : Session) (k : nat) :
  match _fill_graph_score k graph session with
  | Running _ subgraphs => Forall (accounted graph session k) subgraphs
  | Finished _ | Crashed => True
  end.
Proof.
  pose proof (fill_invariant graph session
                (fun k _ q => Forall (accounted graph session k) q)) as Hinv.
  cbv beta in Hinv.
  assert (Hall : forall k,
             match _fill_graph_score k graph session with
             | Finished _ => Forall (accounted graph session k) []
             | Running _ q => Forall (accounted graph session k) q
             | Crashed => True
             end).
  { apply Hinv.
    - intros j _ q Hq. eapply Forall_impl; [|exact Hq].
      intros w. apply accounted_later.
    - apply accounted_seeded.
    - intros j current w rest current' again Hrun Hq Hp.
      apply Forall_app. split.
      + eapply Forall_impl; [|exact (Forall_inv_tail Hq)].
        intros w'. apply accounted_later.
      + apply process_processed in Hp.
        destruct Hp as [acc seen Hv _|acc seen Hv _|acc seen Hv|acc seen Hv];
          try constructor; [|constructor].
        exact (accounted_rescheduled graph session j current w rest acc seen
                 Hrun (Forall_inv Hq) Hv). }
  specialize (Hall k).
  destruct (_fill_graph_score k graph session); try exact I. exact Hall.
Qed.





(** ** Running the function again *)

Lemma stored_not_nan (x : float) : is_nan x = false -> stored x <> None.
Proof.
  intros Hx. unfold stored. rewrite Hx. destruct (is_zero x); discriminate.
Qed.

Lemma stored_nan (x : float) : is_nan x = true -> stored x = None.
Proof. intros Hx. unfold stored. rewrite Hx. reflexivity. Qed.

Lemma seed_package_counted (graph : GraphDatabase) (p : string)
    (session : Session) (subgraphs : list SubGraphEntity.t) :
  counted session ->
  counted (fst (seed_package graph p (session, subgraphs))).
Proof.
  intros Hc. unfold seed_package, set_subgraph_size.
  destruct (get_depends_on_package_names graph p); [|exact Hc].
  destruct (query_first session p); [|exact Hc].
  apply counted_set. exact Hc.
Qed.

Lemma seed_counted (graph : GraphDatabase) (session : Session) :
  counted session -> counted (fst (seed graph session)).
Proof.
  intros Hc. apply (seed_invariant (fun s _ => counted s) graph); [|exact Hc].
  intros p s q _. apply seed_package_counted.
Qed.

Lemma process_counted (session : Session) (subgraph : SubGraphEntity.t) :
  counted session ->
  exists session' again,
    process session subgraph = Some (session', again) /\ counted session'.
Proof.
  intros Hc.
  destruct (process_total session subgraph) as (session' & again & Hp).
  { intros d entry _ Hq _. apply (counted_query session d entry Hc Hq). }
  exists session', again. split; [exact Hp|].
  apply process_processed in Hp.
  destruct Hp; try exact Hc. apply counted_set. exact Hc.
Qed.

(** With a version count in every row the call never raises, and every row
    keeps its count. *)
Lemma fill_counted (graph : GraphDatabase) (session : Session) (fuel : nat) :
  counted session ->
  match _fill_graph_score fuel graph session with
  | Finished session' | Running session' _ => counted session'
  | Crashed => False
  end.
Proof.
  intros Hc. unfold _fill_graph_score.
  pose proof (seed_counted graph session Hc) as H1.
  destruct (seed graph session) as [session1 subgraphs1]. simpl in H1.
  pose proof (drain_invariant_safe (fun s _ => counted s)) as Hd.
  cbv beta in Hd.
  specialize (Hd (fun s w rest Hs => process_counted s w Hs)
                 fuel session1 subgraphs1 H1).
  destruct (drain fuel session1 subgraphs1); exact Hd.
Qed.

(** The seeding walk writes the float of a count: on a table with a count
    in every row it leaves no size unset that was set. *)
Lemma seed_keeps_sizes (graph : GraphDatabase) (session : Session)
    (name : string) :
  counted session ->
  size_of session name <> None ->
  size_of (fst (seed graph session)) name <> None.
Proof.
  intros Hc Hset.
  assert (H : counted (fst (seed graph session))
              /\ size_of (fst (seed graph session)) name <> None).
  { apply (seed_invariant
             (fun s _ => counted s /\ size_of s name <> None) graph);
      [|split; assumption].
    intros p s q _ [Hcs Hs].
    split; [apply seed_package_counted; exact Hcs|].
    unfold seed_package, set_subgraph_size.
    destruct (get_depends_on_package_names graph p); [|exact Hs].
    destruct (query_first s p) as [entry|] eqn:Hq; [|exact Hs].
    destruct (Package.version_count entry) as [c|] eqn:Hcount;
      [|exfalso; exact (counted_query s p entry Hcs Hq Hcount)].
    cbn [fst committed]. destruct (string_dec p name) as [<-|Hne].
    - rewrite size_of_set_same; [discriminate | rewrite Hq; discriminate].
    - rewrite size_of_set_other by exact Hne. exact Hs. }
  exact (proj2 H).
Qed.

Lemma nan_written_later (graph : GraphDatabase) (session : Session)
    (k : nat) (name : string) :
  nan_written graph session k name -> nan_written graph session (S k) name.
Proof.
  intros (j & current & w & rest & acc & seen & Hj & H).
  exists j, current, w, rest, acc, seen. split; [lia | exact H].
Qed.

Lemma keeps_sizes_step (graph : GraphDatabase) (before_run : Session)
    (k : nat) (current : Session) (subgraph : SubGraphEntity.t)
    (rest : list SubGraphEntity.t) :
  _fill_graph_score k graph before_run = Running current (subgraph :: rest) ->
  keeps_sizes graph before_run k current (subgraph :: rest) ->
  exists current' again,
    process current subgraph = Some (current', again)
    /\ keeps_sizes graph before_run (S k) current' (rest ++ again).
Proof.
  intros Hrun [Hc Hsizes].
  destruct (process_counted current subgraph Hc)
    as (current' & again & Hp & Hc').
  exists current', again. split; [exact Hp|]. split; [exact Hc'|].
  intros name Hset. apply process_processed in Hp.
  destruct (Hsizes name Hset) as [Hnow|Hnan];
    [|right; apply nan_written_later; exact Hnan].
  destruct Hp as [acc seen Hv Hrow|acc seen Hv Hrow|acc seen Hv|acc seen Hv];
    try (left; exact Hnow).
  destruct (string_dec (SubGraphEntity.subgraph_name subgraph) name)
    as [Heq|Hne].
  - destruct (is_nan acc) eqn:Hnan.
    + right. exists k, current, subgraph, rest, acc, seen.
      rewrite <- Heq. repeat split; try assumption. lia.
    + left. rewrite <- Heq, size_of_set_same by exact Hrow.
      apply stored_not_nan. exact Hnan.
  - left. rewrite size_of_set_other by exact Hne. exact Hnow.
Qed.

(** C7 (as amended): when every row has its [version_count] set and a first
    call of [_fill_graph_score] has returned, a second call on the table it
    left, with the same graph, raises nothing, and in whatever state the
    second call is found a [subgraph_size] that was set after the first
    call is set, unless the second call has computed a NaN product
    (infinity times zero) for that package, which the table keeps as NULL.
    The value is computed again from the rows as the second call finds
    them; nothing is promised about it. *)
Theorem second_run_keeps_sizes_set (graph : GraphDatabase) (session : Session)
    (fuel1 fuel2 : nat) (after1 : Session) :
  counted session ->
  _fill_graph_score fuel1 graph session = Finished after1 ->
  match _fill_graph_score fuel2 graph after1 with
  | Finished after2 | Running after2 _ =>
      forall name, size_of after1 name <> None ->
                   size_of after2 name <> None
                   \/ nan_written graph after1 fuel2 name
  | Crashed => False
  end.
Proof.
  intros Hc Hrun1.
  pose proof (fill_counted graph session fuel1 Hc) as Hc1.
  rewrite Hrun1 in Hc1.
  pose proof (fill_invariant_safe graph after1 (keeps_sizes graph after1))
    as Hinv.
  assert (Hall : forall k,
             match _fill_graph_score k graph after1 with
             | Finished current => keeps_sizes graph after1 k current []
             | Running current q => keeps_sizes graph after1 k current q
             | Crashed => False
             end).
  { apply Hinv.
    - intros k current q [Hcc Hs]. split; [exact Hcc|].
      intros name Hset. destruct (Hs name Hset) as [H|H];
        [left; exact H | right; apply nan_written_later; exact H].
    - split; [apply seed_counted; exact Hc1|].
      intros name Hset. left. apply seed_keeps_sizes; assumption.
    - intros k current w rest. apply keeps_sizes_step. }
  specialize (Hall fuel2).
  destruct (_fill_graph_score fuel2 graph after1); try exact Hall;
    exact (proj2 Hall).
Qed.

Lemma second_run_keeps_sizes_set_witness :
  match _fill_graph_score 5 graph_outdated
          [row "A" 3 (Some 3%float); row "B" 2 (Some 9%float);
           row "X" 1 (Some 200%float)] with
  | Finished after2 | Running after2 _ =>
      forall name,
        size_of [row "A" 3 (Some 3%float); row "B" 2 (Some 9%float);
                 row "X" 1 (Some 200%float)] name <> None ->
        size_of after2 name <> None
        \/ nan_written graph_outdated
             [row "A" 3 (Some 3%float); row "B" 2 (Some 9%float);
              row "X" 1 (Some 200%float)] 5 name
  | Crashed => False
  end.
Proof.
  apply (second_run_keeps_sizes_set graph_outdated outdated 5 5).
  - repeat constructor; discriminate.
  - reflexivity.
Defined.

(** C7 (as stated) fails on [graph_outdated] and [outdated]: the first call
    gives [X] the size [100 * 2 = 200] from the size [B] had, then writes
    [3 * 3 = 9] to [B]; the second call, on the table the first one left,
    gives [X] the size [9 * 2 = 18]. *)
Lemma second_run_keeps_sizes_set_counterexample :
  let after1 := [row "A" 3 (Some 3%float); row "B" 2 (Some 9%float);
                 row "X" 1 (Some 200%float)] in
  let after2 := [row "A" 3 (Some 3%float); row "B" 2 (Some 9%float);
                 row "X" 1 (Some 18%float)] in
  _fill_graph_score 5 graph_outdated outdated = Finished after1
  /\ _fill_graph_score 5 graph_outdated after1 = Finished after2
  /\ size_of after1 "X" = Some 200%float
  /\ size_of after2 "X" = Some 18%float
  /\ 200%float <> 18%float.
Proof.
  cbv zeta. repeat split. intro H. discriminate H.
Qed.

(** A second call can leave a size unset that the first call had set: on
    [graph_outdated] and [overflowing] the first call gives [X] the size
    [5 * 0 = 0.0] and then [B] the size [2^1023 * 4], which is infinite;
    the second call computes infinity times zero for [X], and the table
    keeps the NaN as NULL. *)
Lemma second_run_unsets_nan_size :
  let after1 := [row "A" 4 (Some 0x1p1023%float);
                 row "B" 0 (Some infinity); row "X" 1 (Some 0%float)] in
  let after2 := [row "A" 4 (Some 0x1p1023%float);
                 row "B" 0 (Some infinity); row "X" 1 None] in
  counted overflowing
  /\ _fill_graph_score 5 graph_outdated overflowing = Finished after1
  /\ _fill_graph_score 5 graph_outdated after1 = Finished after2
  /\ size_of after1 "X" = Some 0%float
  /\ size_of after2 "X" = None
  /\ nan_written graph_outdated after1 5 "X".
Proof.
  cbv zeta. repeat split; try (repeat constructor; discriminate).
  exists 0%nat. do 5 eexists. repeat split; try reflexivity; [lia|].
  discriminate.
Qed.


(** * The rest of the module *)

(** ** [_fill_version_count] *)

Lemma query_first_name (session : Session) (name : string) (entry : Package.t) :
  query_first session name = Some entry -> Package.package_name entry = name.
Proof.
  induction session as [|r rows IH]; simpl; [discriminate|].
  destruct (String.eqb_spec (Package.package_name r) name) as [E|E].
  - intros [= <-]. exact E.
  - exact IH.
Qed.

Lemma query_first_In (session : Session) (name : string) (entry : Package.t) :
  query_first session name = Some entry -> In entry session.
Proof.
  induction session as [|r rows IH]; simpl; [discriminate|].
  destruct (String.eqb (Package.package_name r) name).
  - intros [= <-]. left. reflexivity.
  - intros H. right. apply IH. exact H.
Qed.

Lemma query_first_none_iff (session : Session) (name : string) :
  query_first session name = None
  <-> ~ In name (map Package.package_name session).
Proof.
  induction session as [|r rows IH]; simpl; [tauto|].
  destruct (String.eqb_spec (Package.package_name r) name) as [E|E].
  - split; [discriminate | intros H; exfalso; apply H; left; exact E].
  - rewrite IH. tauto.
Qed.

Lemma query_first_app (session : Session) (r : Package.t) (name : string) :
  query_first (session ++ [r]) name
  = match query_first session name with
    | Some entry => Some entry
    | None => if String.eqb (Package.package_name r) name then Some r else None
    end.
Proof.
  induction session as [|r' rows IH]; simpl; [reflexivity|].
  destruct (String.eqb (Package.package_name r') name); [reflexivity|exact IH].
Qed.

Lemma query_first_set_count_other (session : Session) (name other : string)
    (value : option Z) :
  name <> other ->
  query_first (set_version_count session name value) other
  = query_first session other.
Proof.
  intros Hne. induction session as [|r rows IH]; simpl; [reflexivity|].
  destruct (String.eqb_spec (Package.package_name r) name) as [E|E]; simpl.
  - destruct (String.eqb_spec (Package.package_name r) other) as [E'|E'];
      [congruence | reflexivity].
  - rewrite IH. reflexivity.
Qed.

Lemma query_first_set_count_same (session : Session) (name : string)
    (value : option Z) :
  query_first (set_version_count session name value) name
  = option_map
      (fun e => Package.Build (Package.package_name e) value
                              (Package.subgraph_size e))
      (query_first session name).
Proof.
  induction session as [|r rows IH]; simpl; [reflexivity|].
  destruct (String.eqb_spec (Package.package_name r) name) as [E|E]; simpl.
  - rewrite E, String.eqb_refl. reflexivity.
  - destruct (String.eqb_spec (Package.package_name r) name); [contradiction|].
    exact IH.
Qed.

Lemma set_version_count_names (session : Session) (name : string)
    (value : option Z) :
  map Package.package_name (set_version_count session name value)
  = map Package.package_name session.
Proof.
  induction session as [|r rows IH]; simpl; [reflexivity|].
  destruct (String.eqb (Package.package_name r) name); simpl;
    [reflexivity | rewrite IH; reflexivity].
Qed.

(** Writing the count a row already has changes nothing. *)
Lemma set_version_count_same (session : Session) (name : string)
    (entry : Package.t) (value : option Z) :
  query_first session name = Some entry ->
  Package.version_count entry = value ->
  set_version_count session name value = session.
Proof.
  induction session as [|r rows IH]; simpl; [reflexivity|].
  destruct (String.eqb (Package.package_name r) name).
  - intros [= <-] <-. destruct r; reflexivity.
  - intros Hq Hv. rewrite (IH Hq Hv). reflexivity.
Qed.

Section FillVersionCount.

Variable count : string -> Z.

Lemma count_package_other (session : Session) (p other : string) :
  p <> other ->
  query_first (count_package count session p) other
  = query_first session other.
Proof.
  intros Hne. unfold count_package.
  destruct (query_first session p) eqn:Hq.
  - apply query_first_set_count_other. exact Hne.
  - rewrite query_first_app.
    destruct (query_first session other); [reflexivity|].
    simpl. destruct (String.eqb_spec p other); [contradiction | reflexivity].
Qed.

Lemma count_package_same (session : Session) (p : string) :
  query_first (count_package count session p) p
  = Some (Package.Build p (Some (count p)) (size_of session p)).
Proof.
  unfold count_package, size_of.
  destruct (query_first session p) as [entry|] eqn:Hq.
  - rewrite query_first_set_count_same, Hq. simpl.
    rewrite (query_first_name _ _ _ Hq). reflexivity.
  - rewrite query_first_app, Hq. simpl. rewrite String.eqb_refl. reflexivity.
Qed.

Lemma count_package_size (session : Session) (p name : string) :
  size_of (count_package count session p) name = size_of session name.
Proof.
  destruct (string_dec p name) as [<-|Hne].
  - unfold size_of at 1. rewrite count_package_same. reflexivity.
  - unfold size_of. rewrite count_package_other by exact Hne. reflexivity.
Qed.

Lemma fill_version_count_size (names : list string) (session : Session)
    (name : string) :
  size_of (fold_left (count_package count) names session) name
  = size_of session name.
Proof.
  revert session. induction names as [|p names IH]; intros session; simpl.
  - reflexivity.
  - rewrite IH. apply count_package_size.
Qed.

Lemma fill_version_count_other (names : list string) (session : Session)
    (name : string) :
  ~ In name names ->
  query_first (fold_left (count_package count) names session) name
  = query_first session name.
Proof.
  revert session. induction names as [|p names IH]; intros session Hnot; simpl.
  - reflexivity.
  - rewrite IH by (intros H; apply Hnot; right; exact H).
    apply count_package_other. intros ->. apply Hnot. left. reflexivity.
Qed.

Lemma fill_version_count_row (names : list string) (session : Session)
    (name : string) :
  In name names
  \/ query_first session name
     = Some (Package.Build name (Some (count name)) (size_of session name)) ->
  query_first (fold_left (count_package count) names session) name
  = Some (Package.Build name (Some (count name)) (size_of session name)).
Proof.
  revert session. induction names as [|p names IH]; intros session Hin; simpl.
  - destruct Hin as [[]|Hq]. exact Hq.
  - rewrite <- (count_package_size session p name).
    apply IH. destruct (string_dec p name) as [->|Hne].
    + right. rewrite count_package_same, count_package_size. reflexivity.
    + destruct Hin as [[->|Hin]|Hq]; [contradiction | left; exact Hin |].
      right. rewrite count_package_other, count_package_size by exact Hne.
      exact Hq.
Qed.

End FillVersionCount.

(** X1: after [_fill_version_count] every package that the graph database
    lists has a row; the row the queries find carries the package's name,
    the number of versions the graph database reports and the
    [subgraph_size] the package had before (NULL when the row is new). *)
Theorem fill_version_count_counts (graph : GraphDatabase)
    (count : string -> Z) (session : Session) (name : string) :
  In name (get_python_package_version_names_all graph) ->
  query_first (_fill_version_count graph count session) name
  = Some (Package.Build name (Some (count name)) (size_of session name)).
Proof.
  intros Hin. unfold _fill_version_count.
  apply fill_version_count_row. left. exact Hin.
Qed.

Lemma fill_version_count_counts_witness :
  query_first (_fill_version_count (graph_of ["A"; "B"] edges_AB)
                 (fun _ => 5%Z) [row "A" 3 (Some 2%float)]) "B"
  = Some (Package.Build "B" (Some 5%Z)
            (size_of [row "A" 3 (Some 2%float)] "B")).
Proof.
  apply (fill_version_count_counts (graph_of ["A"; "B"] edges_AB)
           (fun _ => 5%Z) [row "A" 3 (Some 2%float)] "B").
  simpl. auto.
Defined.

(** X2: [_fill_version_count] never changes a [subgraph_size], and the row
    of a package that the graph database does not list is left as it
    was. *)
Theorem fill_version_count_frame (graph : GraphDatabase)
    (count : string -> Z) (session : Session) (name : string) :
  size_of (_fill_version_count graph count session) name = size_of session name
  /\ (~ In name (get_python_package_version_names_all graph) ->
      query_first (_fill_version_count graph count session) name
      = query_first session name).
Proof.
  split.
  - apply fill_version_count_size.
  - apply fill_version_count_other.
Qed.

Lemma fill_version_count_frame_witness :
  size_of (_fill_version_count (graph_of ["B"] edges_AB) (fun _ => 5%Z)
             [row "A" 3 (Some 2%float)]) "A"
  = size_of [row "A" 3 (Some 2%float)] "A"
  /\ query_first (_fill_version_count (graph_of ["B"] edges_AB) (fun _ => 5%Z)
                    [row "A" 3 (Some 2%float)]) "A"
     = query_first [row "A" 3 (Some 2%float)] "A".
Proof.
  destruct (fill_version_count_frame (graph_of ["B"] edges_AB) (fun _ => 5%Z)
              [row "A" 3 (Some 2%float)] "A") as [Hsize Hrow].
  split; [exact Hsize|]. apply Hrow. simpl. intuition discriminate.
Defined.

Lemma fill_version_count_fixed (count : string -> Z) (names : list string)
    (session : Session) :
  (forall p, In p names ->
             exists entry, query_first session p = Some entry
                           /\ Package.version_count entry = Some (count p)) ->
  fold_left (count_package count) names session = session.
Proof.
  induction names as [|p names IH]; intros Hall; simpl; [reflexivity|].
  assert (Hp : count_package count session p = session).
  { destruct (Hall p (or_introl eq_refl)) as (entry & Hq & Hc).
    unfold count_package. rewrite Hq.
    apply (set_version_count_same session p entry _ Hq Hc). }
  rewrite Hp. apply IH. intros q Hin. apply Hall. right. exact Hin.
Qed.

(** X3: [_fill_version_count] is idempotent: with the same graph database
    a second call changes nothing. *)
Theorem fill_version_count_idempotent (graph : GraphDatabase)
    (count : string -> Z) (session : Session) :
  _fill_version_count graph count (_fill_version_count graph count session)
  = _fill_version_count graph count session.
Proof.
  unfold _fill_version_count at 1. apply fill_version_count_fixed.
  intros p Hin. eexists. split.
  - unfold _fill_version_count. apply fill_version_count_row. left. exact Hin.
  - reflexivity.
Qed.

Lemma count_package_nodup (count : string -> Z) (session : Session)
    (p : string) :
  NoDup (map Package.package_name session) ->
  NoDup (map Package.package_name (count_package count session p)).
Proof.
  intros Hnd. unfold count_package.
  destruct (query_first session p) eqn:Hq.
  - rewrite set_version_count_names. exact Hnd.
  - rewrite map_app. simpl.
    apply (Permutation_NoDup (Permutation_cons_append _ p)).
    constructor; [|exact Hnd]. apply query_first_none_iff. exact Hq.
Qed.

Lemma fill_version_count_nodup (count : string -> Z) (names : list string)
    (session : Session) :
  NoDup (map Package.package_name session) ->
  NoDup (map Package.package_name
             (fold_left (count_package count) names session)).
Proof.
  revert session. induction names as [|p names IH]; intros session Hnd; simpl.
  - exact Hnd.
  - apply IH. apply count_package_nodup. exact Hnd.
Qed.

(** When no two rows share a name, a row is the one the query for its name
    finds. *)
Lemma query_first_nodup (session : Session) (r : Package.t) :
  NoDup (map Package.package_name session) ->
  In r session ->
  query_first session (Package.package_name r) = Some r.
Proof.
  induction session as [|r' rows IH]; simpl; intros Hnd Hin; [destruct Hin|].
  inversion Hnd as [|? ? Hnot Hnd']; subst.
  destruct Hin as [->|Hin].
  - rewrite String.eqb_refl. reflexivity.
  - destruct (String.eqb_spec (Package.package_name r')
                              (Package.package_name r)) as [E|E].
    + exfalso. apply Hnot. rewrite E. apply in_map. exact Hin.
    + apply IH; assumption.
Qed.

Lemma fill_version_count_counted (graph : GraphDatabase)
    (count : string -> Z) (session : Session) :
  NoDup (map Package.package_name session) ->
  (forall name, In name (uncounted_names session) ->
                In name (get_python_package_version_names_all graph)) ->
  counted (_fill_version_count graph count session).
Proof.
  intros Hnd Hlisted. apply Forall_forall. intros r Hin.
  pose proof (fill_version_count_nodup count
                (get_python_package_version_names_all graph) session Hnd)
    as Hnd'.
  pose proof (query_first_nodup _ r Hnd' Hin) as Hq.
  destruct (in_dec string_dec (Package.package_name r)
                   (get_python_package_version_names_all graph)) as [Hl|Hl].
  - unfold _fill_version_count in Hin.
    rewrite (fill_version_count_row count _ session _ (or_introl Hl)) in Hq.
    injection Hq as <-. simpl. discriminate.
  - rewrite (fill_version_count_other count _ session _ Hl) in Hq.
    intros Hnone. apply Hl. apply Hlisted. unfold uncounted_names.
    apply in_map. apply filter_In. split.
    + apply (query_first_In _ _ _ Hq).
    + rewrite Hnone. reflexivity.
Qed.

(** X4: if no two rows share a name and every row without a version count
    belongs to a package that the graph database lists, then after
    [_fill_version_count] every row has its version count, and
    [_fill_graph_score] on that table never raises the [TypeError] of
    line 153, however long it runs. *)
Theorem fill_version_count_then_score (graph : GraphDatabase)
    (count : string -> Z) (session : Session) (fuel : nat) :
  NoDup (map Package.package_name session) ->
  (forall name, In name (uncounted_names session) ->
                In name (get_python_package_version_names_all graph)) ->
  counted (_fill_version_count graph count session)
  /\ _fill_graph_score fuel graph (_fill_version_count graph count session)
     <> Crashed.
Proof.
  intros Hnd Hlisted.
  pose proof (fill_version_count_counted graph count session Hnd Hlisted)
    as Hc.
  split; [exact Hc|].
  pose proof (fill_counted graph _ fuel Hc) as Hrun.
  destruct (_fill_graph_score fuel graph
              (_fill_version_count graph count session));
    [discriminate | destruct Hrun | discriminate].
Qed.

Lemma fill_version_count_then_score_witness :
  counted (_fill_version_count (graph_of ["A"; "B"] edges_AB) (fun _ => 3%Z)
             [Package.Build "A" None None])
  /\ _fill_graph_score 4 (graph_of ["A"; "B"] edges_AB)
       (_fill_version_count (graph_of ["A"; "B"] edges_AB) (fun _ => 3%Z)
          [Package.Build "A" None None])
     <> Crashed.
Proof.
  apply (fill_version_count_then_score (graph_of ["A"; "B"] edges_AB)
           (fun _ => 3%Z) [Package.Build "A" None None] 4).
  - repeat constructor. simpl. intuition.
  - intros name [<-|[]]. simpl. auto.
Defined.

(** ** What [_fill_graph_score] leaves alone *)

Lemma update_subgraph_size_keys (session : Session) (name : string)
    (value : option float) :
  keys (update_subgraph_size session name value) = keys session.
Proof.
  unfold keys. induction session as [|r rows IH]; simpl; [reflexivity|].
  destruct (String.eqb (Package.package_name r) name); simpl;
    [reflexivity | rewrite IH; reflexivity].
Qed.

Lemma seed_package_keys (graph : GraphDatabase) (p : string)
    (session : Session) (subgraphs : list SubGraphEntity.t) :
  keys (fst (seed_package graph p (session, subgraphs))) = keys session.
Proof.
  unfold seed_package, set_subgraph_size.
  destruct (get_depends_on_package_names graph p); [|reflexivity].
  destruct (query_first session p); [|reflexivity].
  apply update_subgraph_size_keys.
Qed.

Lemma process_keys (session session' : Session) (subgraph : SubGraphEntity.t)
    (again : list SubGraphEntity.t) :
  process session subgraph = Some (session', again) ->
  keys session' = keys session.
Proof.
  intros Hp. apply process_processed in Hp.
  destruct Hp; try reflexivity. apply update_subgraph_size_keys.
Qed.

(** X5: [_fill_graph_score] writes column [subgraph_size] only: in whatever
    state the call is found, the table has the same rows in the same order
    with the same [package_name] and [version_count]; no row is added or
    removed. *)
Theorem fill_graph_score_keeps_keys (graph : GraphDatabase)
    (session : Session) (fuel : nat) :
  match _fill_graph_score fuel graph session with
  | Finished session' | Running session' _ => keys session' = keys session
  | Crashed => True
  end.
Proof.
  unfold _fill_graph_score.
  assert (H1 : keys (fst (seed graph session)) = keys session).
  { apply (seed_invariant (fun s _ => keys s = keys session) graph);
      [|reflexivity].
    intros p s q _ Hs. rewrite seed_package_keys. exact Hs. }
  destruct (seed graph session) as [session1 subgraphs1]. simpl in H1.
  apply (drain_invariant (fun s _ => keys s = keys session)); [|exact H1].
  intros s w rest s' again Hs Hp. rewrite (process_keys _ _ _ _ Hp). exact Hs.
Qed.

Lemma untouched_seed (graph : GraphDatabase) (name p : string)
    (before_run session : Session) (subgraphs : list SubGraphEntity.t) :
  p <> name ->
  untouched name before_run session subgraphs ->
  untouched name before_run
            (fst (seed_package graph p (session, subgraphs)))
            (snd (seed_package graph p (session, subgraphs))).
Proof.
  intros Hne [Hrow Hq]. split.
  - rewrite <- Hrow. unfold seed_package, set_subgraph_size.
    destruct (get_depends_on_package_names graph p); [|reflexivity].
    destruct (query_first session p); [|reflexivity].
    simpl. apply query_first_set_other. exact Hne.
  - rewrite seed_package_subgraphs. intros w Hin.
    apply in_app_iff in Hin. destruct Hin as [Hin|Hin]; [apply Hq; exact Hin|].
    apply seeded_for_name in Hin. subst w. exact Hne.
Qed.

Lemma untouched_process (name : string) (before_run session : Session)
    (subgraph : SubGraphEntity.t) (rest : list SubGraphEntity.t)
    (session' : Session) (again : list SubGraphEntity.t) :
  untouched name before_run session (subgraph :: rest) ->
  process session subgraph = Some (session', again) ->
  untouched name before_run session' (rest ++ again).
Proof.
  intros [Hrow Hq] Hp. apply process_processed in Hp.
  pose proof (Hq subgraph (or_introl eq_refl)) as Hne.
  assert (Hrest : forall w, In w rest ->
                    SubGraphEntity.subgraph_name w <> name).
  { intros w Hin. apply Hq. right. exact Hin. }
  destruct Hp as [acc seen Hv Hsub|acc seen Hv Hsub|acc seen Hv|acc seen Hv];
    rewrite ?app_nil_r; split; try assumption.
  - rewrite query_first_set_other by exact Hne. exact Hrow.
  - intros w Hin. apply in_app_iff in Hin. destruct Hin as [Hin|[<-|[]]];
      [apply Hrest; exact Hin | exact Hne].
Qed.

(** X6: [_fill_graph_score] never writes the row of a package that the
    graph database does not list: in whatever state the call is found, the
    query for such a package returns what it returned before the call. *)
Theorem fill_graph_score_unlisted (graph : GraphDatabase) (session : Session)
    (name : string) (fuel : nat) :
  ~ In name (get_python_package_version_names_all graph) ->
  match _fill_graph_score fuel graph session with
  | Finished session' | Running session' _ =>
      query_first session' name = query_first session name
  | Crashed => True
  end.
Proof.
  intros Hnot. unfold _fill_graph_score.
  assert (H1 : untouched name session (fst (seed graph session))
                         (snd (seed graph session))).
  { apply seed_invariant.
    - intros p s q Hin. apply untouched_seed. intros ->. contradiction.
    - split; [reflexivity | intros w []]. }
  destruct (seed graph session) as [session1 subgraphs1]. simpl in H1.
  pose proof (drain_invariant (untouched name session)
                (untouched_process name session) fuel session1 subgraphs1 H1)
    as Hd.
  destruct (drain fuel session1 subgraphs1); try exact I; exact (proj1 Hd).
Qed.

Lemma fill_graph_score_unlisted_witness :
  match _fill_graph_score 5 graph_outdated outdated with
  | Finished session' | Running session' _ =>
      query_first session' "A" = query_first outdated "A"
  | Crashed => True
  end.
Proof.
  apply (fill_graph_score_unlisted graph_outdated outdated "A" 5).
  simpl. intuition discriminate.
Defined.

(** ** The seeding walk on the table *)

Lemma seed_package_other (graph : GraphDatabase) (p name : string)
    (session : Session) (subgraphs : list SubGraphEntity.t) :
  p <> name ->
  query_first (fst (seed_package graph p (session, subgraphs))) name
  = query_first session name.
Proof.
  intros Hne. unfold seed_package, set_subgraph_size.
  destruct (get_depends_on_package_names graph p); [|reflexivity].
  destruct (query_first session p); [|reflexivity].
  simpl. apply query_first_set_other. exact Hne.
Qed.

Lemma seed_package_leaf (graph : GraphDatabase) (p : string)
    (session : Session) (subgraphs : list SubGraphEntity.t)
    (entry : Package.t) :
  get_depends_on_package_names graph p = [] ->
  query_first session p = Some entry ->
  query_first (fst (seed_package graph p (session, subgraphs))) p
  = Some (Package.Build p (Package.version_count entry)
            (option_map float_of_int (Package.version_count entry))).
Proof.
  intros Hleaf Hq. unfold seed_package, set_subgraph_size.
  rewrite Hleaf, Hq. simpl.
  rewrite query_first_set_same, Hq. simpl.
  rewrite (query_first_name _ _ _ Hq).
  destruct (Package.version_count entry); reflexivity.
Qed.

Lemma seed_package_nonleaf (graph : GraphDatabase) (p : string)
    (session : Session) (subgraphs : list SubGraphEntity.t) :
  get_depends_on_package_names graph p <> [] ->
  fst (seed_package graph p (session, subgraphs)) = session.
Proof.
  intros Hdeps. unfold seed_package, set_subgraph_size.
  destruct (get_depends_on_package_names graph p);
    [contradiction | reflexivity].
Qed.

Lemma seed_leaf_row (graph : GraphDatabase) (name : string)
    (count : option Z) (names : list string) :
  get_depends_on_package_names graph name = [] ->
  forall session subgraphs,
    (exists entry, query_first session name = Some entry
                   /\ Package.version_count entry = count) ->
    In name names
    \/ query_first session name
       = Some (Package.Build name count (option_map float_of_int count)) ->
    query_first
      (fst (fold_left (fun st p => seed_package graph p st) names
                      (session, subgraphs))) name
    = Some (Package.Build name count (option_map float_of_int count)).
Proof.
  intros Hleaf. induction names as [|p names IH];
    intros session subgraphs Hrow Hin; cbn [fold_left].
  - destruct Hin as [[]|Hq]. exact Hq.
  - destruct (seed_package graph p (session, subgraphs))
      as [session1 subgraphs1] eqn:Hstep.
    assert (H1 : session1 = fst (seed_package graph p (session, subgraphs)))
      by (rewrite Hstep; reflexivity).
    destruct (string_dec p name) as [->|Hne].
    + destruct Hrow as (entry & Hq & Hc).
      pose proof (seed_package_leaf graph name session subgraphs entry
                    Hleaf Hq) as Hdone.
      rewrite <- H1, Hc in Hdone.
      apply IH; [|right; exact Hdone].
      eexists. split; [exact Hdone | reflexivity].
    + pose proof (seed_package_other graph p name session subgraphs Hne)
        as Hsame.
      rewrite <- H1 in Hsame. apply IH.
      * rewrite Hsame. exact Hrow.
      * destruct Hin as [[->|Hin]|Hq]; [contradiction | left; exact Hin |].
        right. rewrite Hsame. exact Hq.
Qed.

(** X7: the seeding walk does what the comment of line 124 says: when it
    is over (before the [while] loop runs), every listed package without
    dependencies that has a row has [subgraph_size = version_count] (as a
    float; NULL when the count is NULL), and the row of every package with
    dependencies is as it was. *)
Theorem seed_marks_leaves (graph : GraphDatabase) (session : Session)
    (name : string) :
  (forall entry,
      In name (get_python_package_version_names_all graph) ->
      get_depends_on_package_names graph name = [] ->
      query_first session name = Some entry ->
      query_first (fst (seed graph session)) name
      = Some (Package.Build name (Package.version_count entry)
                (option_map float_of_int (Package.version_count entry))))
  /\ (get_depends_on_package_names graph name <> [] ->
      query_first (fst (seed graph session)) name = query_first session name).
Proof.
  split.
  - intros entry Hin Hleaf Hq. unfold seed.
    apply seed_leaf_row; [exact Hleaf | | left; exact Hin].
    exists entry. split; [exact Hq | reflexivity].
  - intros Hdeps.
    apply (seed_invariant
             (fun s _ => query_first s name = query_first session name) graph);
      [|reflexivity].
    intros p s q _ Hs. rewrite <- Hs.
    destruct (string_dec p name) as [->|Hne].
    + rewrite seed_package_nonleaf by exact Hdeps. reflexivity.
    + apply seed_package_other. exact Hne.
Qed.

Lemma seed_marks_leaves_witness :
  query_first (fst (seed (graph_of ["A"; "B"] edges_AB) scenario_AB)) "A"
  = Some (Package.Build "A" (Some 3%Z) (option_map float_of_int (Some 3%Z)))
  /\ query_first (fst (seed (graph_of ["A"; "B"] edges_AB) scenario_AB)) "B"
     = query_first scenario_AB "B".
Proof.
  split.
  - apply (proj1 (seed_marks_leaves (graph_of ["A"; "B"] edges_AB)
                    scenario_AB "A") (row "A" 3 None)).
    + simpl. auto.
    + reflexivity.
    + reflexivity.
  - apply (proj2 (seed_marks_leaves (graph_of ["A"; "B"] edges_AB)
                    scenario_AB "B")).
    discriminate.
Defined.

(** ** A table on which nothing can start *)

Lemma set_of_cons_not_nil (d : string) (l : list string) :
  set_of (d :: l) <> [].
Proof.
  intros Hnil. assert (Hin : In d (set_of (d :: l))).
  { apply set_of_In. left. reflexivity. }
  rewrite Hnil in Hin. destruct Hin.
Qed.

Lemma idle_seed (graph : GraphDatabase) (before_run : Session) (p : string)
    (session : Session) (subgraphs : list SubGraphEntity.t) :
  (get_depends_on_package_names graph p = [] ->
   query_first before_run p = None) ->
  idle before_run session subgraphs ->
  idle before_run (fst (seed_package graph p (session, subgraphs)))
       (snd (seed_package graph p (session, subgraphs))).
Proof.
  intros Hleaf [-> Hq]. split.
  - unfold seed_package, set_subgraph_size.
    destruct (get_depends_on_package_names graph p) eqn:Hdeps; [|reflexivity].
    rewrite (Hleaf eq_refl). reflexivity.
  - rewrite seed_package_subgraphs. intros w Hin.
    apply in_app_iff in Hin. destruct Hin as [Hin|Hin]; [apply Hq; exact Hin|].
    apply seeded_for_name in Hin. subst w. simpl. split; [reflexivity|].
    destruct (get_depends_on_package_names graph p) as [|d deps] eqn:Hdeps.
    + intros _. apply Hleaf. reflexivity.
    + intros Hnil. exfalso. exact (set_of_cons_not_nil d deps Hnil).
Qed.

Lemma idle_process (before_run session : Session)
    (subgraph : SubGraphEntity.t) (rest : list SubGraphEntity.t) :
  (forall name, size_of before_run name = None) ->
  idle before_run session (subgraph :: rest) ->
  exists session' again,
    process session subgraph = Some (session', again)
    /\ idle before_run session' (rest ++ again).
Proof.
  intros Hnone [-> Hq].
  destruct (Hq subgraph (or_introl eq_refl)) as [Hseen Hleaf].
  assert (Hrest : forall w, In w rest ->
             SubGraphEntity.subgraphs_seen w = []
             /\ (SubGraphEntity.to_visit w = [] ->
                 query_first before_run (SubGraphEntity.subgraph_name w)
                 = None)).
  { intros w Hin. apply Hq. right. exact Hin. }
  unfold process.
  destruct (SubGraphEntity.to_visit subgraph) as [|d pending] eqn:Htv.
  - simpl. rewrite (Hleaf eq_refl). exists before_run, [].
    rewrite app_nil_r. split; [reflexivity|]. split; [reflexivity|exact Hrest].
  - simpl. specialize (Hnone d). unfold size_of in Hnone.
    destruct (query_first before_run d) as [entry|].
    + rewrite Hnone, Hseen, set_isub_nil. eexists. eexists.
      split; [reflexivity|]. split; [reflexivity|].
      intros w Hin. apply in_app_iff in Hin.
      destruct Hin as [Hin|[<-|[]]]; [apply Hrest; exact Hin|].
      simpl. split; [reflexivity | discriminate].
    + exists before_run, []. rewrite app_nil_r.
      split; [reflexivity|]. split; [reflexivity|exact Hrest].
Qed.

(** X8: the call needs the seeding walk to start it: on a table in which no
    row has a [subgraph_size] and no listed package without dependencies
    has a row, [_fill_graph_score] never writes anything and never raises;
    in whatever state it is found, the table is the one it started with. *)
Theorem fill_graph_score_needs_a_leaf (graph : GraphDatabase)
    (session : Session) (fuel : nat) :
  (forall name, size_of session name = None) ->
  (forall p, In p (get_python_package_version_names_all graph) ->
             get_depends_on_package_names graph p = [] ->
             query_first session p = None) ->
  match _fill_graph_score fuel graph session with
  | Finished session' | Running session' _ => session' = session
  | Crashed => False
  end.
Proof.
  intros Hnone Hleaves. unfold _fill_graph_score.
  assert (H1 : idle session (fst (seed graph session))
                    (snd (seed graph session))).
  { apply seed_invariant.
    - intros p s q Hin. apply idle_seed. apply Hleaves. exact Hin.
    - split; [reflexivity | intros w []]. }
  destruct (seed graph session) as [session1 subgraphs1]. simpl in H1.
  pose proof (drain_invariant_safe (idle session)
                (fun s w rest => idle_process session s w rest Hnone)
                fuel session1 subgraphs1 H1) as Hd.
  destruct (drain fuel session1 subgraphs1); try exact Hd; exact (proj1 Hd).
Qed.

Lemma fill_graph_score_needs_a_leaf_witness :
  match _fill_graph_score 9 graph_missing_M missing_M with
  | Finished session' | Running session' _ => session' = missing_M
  | Crashed => False
  end.
Proof.
  apply (fill_graph_score_needs_a_leaf graph_missing_M missing_M 9).
  - intros name. unfold size_of, missing_M. cbn -[String.eqb].
    destruct (String.eqb "P" name); [reflexivity|].
    destruct (String.eqb "U" name); reflexivity.
  - intros p [<-|[<-|[]]]; discriminate.
Defined.

(** ** The command [pile] *)

Lemma process_empty (subgraph : SubGraphEntity.t) :
  process [] subgraph = Some ([], []).
Proof.
  unfold process. destruct (SubGraphEntity.to_visit subgraph); reflexivity.
Qed.

Lemma drain_empty (subgraphs : list SubGraphEntity.t) (fuel : nat) :
  (List.length subgraphs <= fuel)%nat ->
  drain fuel [] subgraphs = Finished [].
Proof.
  revert fuel. induction subgraphs as [|w rest IH]; intros fuel Hlen.
  - destruct fuel; reflexivity.
  - destruct fuel as [|fuel]; simpl in Hlen; [lia|].
    simpl. rewrite process_empty, app_nil_r. apply IH. lia.
Qed.

Lemma seeded_length (graph : GraphDatabase) (session : Session) :
  (List.length (snd (seed graph session))
   <= 2 * List.length (get_python_package_version_names_all graph))%nat.
Proof.
  rewrite seed_subgraphs.
  induction (get_python_package_version_names_all graph) as [|p names IH].
  - simpl. lia.
  - cbn [flat_map]. rewrite length_app. cbn [List.length].
    assert (List.length (seeded_for graph p) <= 2)%nat.
    { unfold seeded_for.
      destruct (get_depends_on_package_names graph p); simpl; lia. }
    lia.
Qed.

(** X9: [pile] computes nothing on a new file.  When the file does not
    exist, or [--recreate] removes it, the table is created empty and line
    222, which would fill it, is commented out: the call returns after at
    most two iterations per listed package and leaves the table empty. *)
Theorem pile_on_new_file (graph : GraphDatabase) (file : option Session)
    (recreate : bool) (fuel : nat) :
  file = None \/ recreate = true ->
  (2 * List.length (get_python_package_version_names_all graph) <= fuel)%nat ->
  pile fuel graph file recreate = Finished [].
Proof.
  intros Hnew Hfuel.
  assert (Hpile : pile fuel graph file recreate
                  = _fill_graph_score fuel graph []).
  { unfold pile. destruct Hnew as [-> | ->]; [reflexivity|].
    destruct file; reflexivity. }
  rewrite Hpile. unfold _fill_graph_score.
  assert (H1 : fst (seed graph []) = []).
  { apply (seed_invariant (fun s _ => s = []) graph); [|reflexivity].
    intros p s q _ ->. unfold seed_package, set_subgraph_size.
    destruct (get_depends_on_package_names graph p); reflexivity. }
  pose proof (seeded_length graph []) as Hlen.
  destruct (seed graph []) as [session1 subgraphs1]. simpl in H1, Hlen.
  subst session1. apply drain_empty. lia.
Qed.

Lemma pile_on_new_file_witness :
  pile 4 (graph_of ["A"; "B"] edges_AB) (Some scenario_AB) true = Finished [].
Proof.
  apply (pile_on_new_file (graph_of ["A"; "B"] edges_AB) (Some scenario_AB)
           true 4).
  - right. reflexivity.
  - simpl. lia.
Defined.

(** ** Graphs on which the loop ends *)

Lemma drain_more (fuel : nat) :
  forall session subgraphs after more,
    drain fuel session subgraphs = Finished after ->
    drain (fuel + more) session subgraphs = Finished after.
Proof.
  induction fuel as [|fuel IH]; intros session subgraphs after more Hd.
  - destruct subgraphs; simpl in Hd; [|discriminate].
    destruct (0 + more)%nat; exact Hd.
  - destruct subgraphs as [|w rest]; [exact Hd|].
    simpl in Hd. simpl.
    destruct (process session w) as [[session' again]|]; [|discriminate].
    apply IH. exact Hd.
Qed.

Lemma least_exists {A : Type} (f : A -> nat) (l : list A) :
  l <> [] -> exists x, In x l /\ forall y, In y l -> (f x <= f y)%nat.
Proof.
  induction l as [|a l IH]; intros Hne; [contradiction|].
  destruct l as [|b l].
  - exists a. split; [left; reflexivity|]. intros y [<-|[]]. lia.
  - destruct IH as (x & Hin & Hmin); [discriminate|].
    destruct (Nat.le_gt_cases (f a) (f x)) as [Hle|Hgt].
    + exists a. split; [left; reflexivity|].
      intros y [<-|Hy]; [lia|]. specialize (Hmin y Hy). lia.
    + exists x. split; [right; exact Hin|].
      intros y [<-|Hy]; [lia|]. apply Hmin. exact Hy.
Qed.

Lemma first_true {A : Type} (f : A -> bool) (l : list A) :
  (exists x, In x l /\ f x = true) ->
  exists pre x post,
    l = pre ++ x :: post /\ f x = true /\ Forall (fun y => f y = false) pre.
Proof.
  induction l as [|a l IH]; intros (x & Hin & Hx); [destruct Hin|].
  destruct (f a) eqn:Ha.
  - exists [], a, l. repeat split; [exact Ha | constructor].
  - destruct Hin as [->|Hin]; [congruence|].
    destruct IH as (pre & y & post & -> & Hy & Hpre); [exists x; auto|].
    exists (a :: pre), y, post. repeat split; [exact Hy|].
    constructor; assumption.
Qed.

(** With a row and a version count for every name it visits, a visit ends
    in the [else] clause or reschedules the entity. *)
Lemma visit_settling (session : Session) (pending : list string) :
  counted session ->
  (forall d, In d pending -> query_first session d <> None) ->
  forall acc seen,
    if forallb (fun d => match size_of session d with
                         | Some _ => true
                         | None => false
                         end) pending
    then exists acc' seen',
           visit session pending acc seen = Exhausted acc' seen'
    else exists acc' seen',
           visit session pending acc seen = Rescheduled acc' seen'.
Proof.
  intros Hc. induction pending as [|d pending IH]; intros Hrows acc seen.
  - simpl. eexists. eexists. reflexivity.
  - cbn [forallb visit]. unfold size_of at 1.
    destruct (query_first session d) as [entry|] eqn:Hq.
    + destruct (Package.subgraph_size entry) as [s|].
      * destruct (Package.version_count entry) as [c|] eqn:Hcount.
        -- cbn [andb]. apply IH. intros d' Hin. apply Hrows. right. exact Hin.
        -- exfalso. exact (counted_query session d entry Hc Hq Hcount).
      * cbn [andb]. eexists. eexists. reflexivity.
    + exfalso. apply (Hrows d (or_introl eq_refl)). exact Hq.
Qed.

Lemma nan_written_mono (graph : GraphDatabase) (session : Session)
    (k k' : nat) (name : string) :
  (k <= k')%nat ->
  nan_written graph session k name -> nan_written graph session k' name.
Proof.
  intros Hle (j & current & w & rest & acc & seen & Hj & H).
  exists j, current, w, rest, acc, seen. split; [lia | exact H].
Qed.

Section Settling.

Variable graph : GraphDatabase.
Variable rank : string -> nat.
Variable start : Session.

Hypothesis acyclic :
  forall p d, In p (get_python_package_version_names_all graph) ->
              In d (get_depends_on_package_names graph p) ->
              (rank d < rank p)%nat.
Hypothesis closed :
  forall p d, In p (get_python_package_version_names_all graph) ->
              In d (get_depends_on_package_names graph p) ->
              In d (get_python_package_version_names_all graph).

Lemma settling_rows (session : Session) (w : SubGraphEntity.t)
    (subgraphs : list SubGraphEntity.t) :
  settling graph session subgraphs -> In w subgraphs ->
  forall d, In d (SubGraphEntity.to_visit w) -> query_first session d <> None.
Proof.
  intros (_ & Hrows & Hq & _) Hin d Hd.
  destruct (Hq w Hin) as [Hlisted Hdeps].
  apply Hrows. apply (closed _ d Hlisted). apply Hdeps. exact Hd.
Qed.

(** A ready entity writes what the table keeps of its product and leaves
    the deque; unless the product is NaN, its package has a size from then
    on.  An entity that is not ready is rescheduled. *)
Lemma settling_process (session : Session) (subgraph : SubGraphEntity.t)
    (rest : list SubGraphEntity.t) :
  settling graph session (subgraph :: rest) ->
  if ready session subgraph
  then exists acc seen,
         visit session (SubGraphEntity.to_visit subgraph)
               (SubGraphEntity.subgraph_size subgraph)
               (SubGraphEntity.subgraphs_seen subgraph)
         = Exhausted acc seen
         /\ process session subgraph
            = Some (update_subgraph_size session
                      (SubGraphEntity.subgraph_name subgraph) (stored acc),
                    [])
         /\ (is_nan acc = false ->
             settling graph
               (update_subgraph_size session
                  (SubGraphEntity.subgraph_name subgraph) (stored acc)) rest)
  else exists again,
         process session subgraph = Some (session, [again])
         /\ settling graph session (rest ++ [again]).
Proof.
  intros Hs.
  pose proof (settling_rows session subgraph _ Hs (or_introl eq_refl)) as Hrows.
  destruct Hs as (Hc & Hlisted & Hq & Hdone).
  destruct (Hq subgraph (or_introl eq_refl)) as [Hname Hdeps].
  pose proof (visit_settling session (SubGraphEntity.to_visit subgraph) Hc
                Hrows (SubGraphEntity.subgraph_size subgraph)
                (SubGraphEntity.subgraphs_seen subgraph)) as Hv.
  unfold ready.
  destruct (forallb _ (SubGraphEntity.to_visit subgraph)).
  - destruct Hv as (acc & seen & Hv). exists acc, seen.
    split; [exact Hv|]. unfold process. rewrite Hv.
    destruct (query_first session (SubGraphEntity.subgraph_name subgraph))
      eqn:Hsub; [|exfalso; exact (Hlisted _ Hname Hsub)].
    split; [reflexivity|]. intros Hnan.
    split; [apply counted_set; exact Hc|].
    split; [intros p Hp; rewrite query_first_set_none; apply Hlisted;
            exact Hp|].
    split; [intros w Hw; apply Hq; right; exact Hw|].
    intros p Hp.
    destruct (string_dec (SubGraphEntity.subgraph_name subgraph) p)
      as [<-|Hne].
    + right. rewrite size_of_set_same; [apply stored_not_nan; exact Hnan|].
      rewrite Hsub. discriminate.
    + destruct (Hdone p Hp) as [(w & [<-|Hw] & Hwp)|Hsize].
      * contradiction.
      * left. exists w. split; assumption.
      * right. rewrite size_of_set_other by exact Hne. exact Hsize.
  - destruct Hv as (acc & seen & Hv). eexists. unfold process. rewrite Hv.
    split; [reflexivity|].
    split; [exact Hc|]. split; [exact Hlisted|]. split.
    + intros w Hw. apply in_app_iff in Hw.
      destruct Hw as [Hw|[<-|[]]]; [apply Hq; right; exact Hw|].
      simpl. split; [exact Hname|].
      intros d Hd. apply Hdeps. apply set_isub_In in Hd. exact (proj1 Hd).
    + intros p Hp. destruct (Hdone p Hp) as [(w & [<-|Hw] & Hwp)|Hsize].
      * left. eexists. split; [apply in_app_iff; right; left; reflexivity|].
        exact Hwp.
      * left. exists w. split; [apply in_app_iff; left; exact Hw | exact Hwp].
      * right. exact Hsize.
Qed.

(** In a deque that is not empty some entity is ready: one for a package
    of least rank. *)
Lemma settling_ready (session : Session) (subgraphs : list SubGraphEntity.t) :
  settling graph session subgraphs -> subgraphs <> [] ->
  exists w, In w subgraphs /\ ready session w = true.
Proof.
  intros (Hc & Hlisted & Hq & Hdone) Hne.
  destruct (least_exists (fun w => rank (SubGraphEntity.subgraph_name w))
              subgraphs Hne) as (w & Hin & Hmin).
  exists w. split; [exact Hin|].
  destruct (Hq w Hin) as [Hname Hdeps].
  unfold ready. apply forallb_forall. intros d Hd.
  pose proof (acyclic _ d Hname (Hdeps d Hd)) as Hrank.
  destruct (Hdone d (closed _ d Hname (Hdeps d Hd)))
    as [(w' & Hin' & Hname')|Hsize].
  - specialize (Hmin w' Hin'). simpl in Hmin. rewrite Hname' in Hmin. lia.
  - destruct (size_of session d); [reflexivity | contradiction].
Qed.

(** The entities before the first ready one are rescheduled in turn, then
    the ready one writes its size and leaves the deque, or writes a NaN
    product. *)
Lemma settling_rotate (pre : list SubGraphEntity.t) :
  forall session w post k,
    _fill_graph_score k graph start = drain 0 session (pre ++ w :: post) ->
    settling graph session (pre ++ w :: post) ->
    Forall (fun y => ready session y = false) pre ->
    ready session w = true ->
    (exists session' subgraphs',
       _fill_graph_score (k + List.length pre + 1) graph start
       = drain 0 session' subgraphs'
       /\ settling graph session' subgraphs'
       /\ List.length subgraphs' = (List.length pre + List.length post)%nat)
    \/ exists name,
         nan_written graph start (k + List.length pre + 1) name.
Proof.
  induction pre as [|x pre IH]; intros session w post k Hrun Hs Hpre Hw.
  - pose proof (settling_process session w post Hs) as Hp.
    rewrite Hw in Hp. destruct Hp as (acc & seen & Hv & Hp & Hs').
    cbn [app drain] in Hrun. cbn [List.length]. rewrite Nat.add_0_r.
    destruct (is_nan acc) eqn:Hnan.
    + right. exists (SubGraphEntity.subgraph_name w).
      exists k, session, w, post, acc, seen.
      destruct Hs as (_ & Hlisted & Hq & _).
      repeat split; try assumption; [lia|].
      apply Hlisted. apply (Hq w). left. reflexivity.
    + left. eexists. exists post.
      split; [|split; [exact (Hs' eq_refl) | reflexivity]].
      rewrite Nat.add_1_r, fill_succ, Hrun. cbn [advance].
      rewrite Hp, app_nil_r. reflexivity.
  - inversion Hpre as [|? ? Hx Hpre']; subst.
    pose proof (settling_process session x (pre ++ w :: post) Hs) as Hp.
    rewrite Hx in Hp. destruct Hp as (again & Hp & Hs').
    rewrite <- app_assoc in Hs'. cbn [app] in Hs'.
    assert (Hrun' : _fill_graph_score (S k) graph start
                    = drain 0 session (pre ++ w :: post ++ [again])).
    { rewrite fill_succ, Hrun. cbn [app drain advance]. rewrite Hp.
      rewrite <- app_assoc. reflexivity. }
    replace (k + List.length (x :: pre) + 1)%nat
      with (S k + List.length pre + 1)%nat by (cbn [List.length]; lia).
    destruct (IH session w (post ++ [again]) (S k) Hrun' Hs' Hpre' Hw)
      as [(session' & subgraphs' & Hd & Hs'' & Hlen)|Hnan];
      [left | right; exact Hnan].
    exists session', subgraphs'. split; [exact Hd|]. split; [exact Hs''|].
    rewrite Hlen, length_app. cbn [List.length]. lia.
Qed.

Lemma settling_ends (n : nat) :
  forall k session subgraphs,
    List.length subgraphs = n ->
    _fill_graph_score k graph start = drain 0 session subgraphs ->
    settling graph session subgraphs ->
    (exists after,
       _fill_graph_score (k + n * n) graph start = Finished after
       /\ settling graph after [])
    \/ exists name, nan_written graph start (k + n * n) name.
Proof.
  induction n as [|n IH]; intros k session subgraphs Hlen Hrun Hs.
  - destruct subgraphs; [|discriminate]. left. exists session.
    split; [|exact Hs]. rewrite Nat.add_0_r. exact Hrun.
  - assert (Hne : subgraphs <> []) by (destruct subgraphs; discriminate).
    destruct (first_true (ready session) subgraphs
                (settling_ready session subgraphs Hs Hne))
      as (pre & w & post & -> & Hw & Hpre).
    rewrite length_app in Hlen. cbn [List.length] in Hlen.
    destruct (settling_rotate pre session w post k Hrun Hs Hpre Hw)
      as [(session' & subgraphs' & Hd & Hs' & Hlen')|(name & Hnan)].
    + destruct (IH (k + List.length pre + 1)%nat session' subgraphs')
        as [(after & Hafter & Hend)|(name & Hnan)];
        [lia | exact Hd | exact Hs' | left | right].
      * exists after. split; [|exact Hend].
        replace (k + S n * S n)%nat
          with (k + List.length pre + 1 + n * n
                + (k + S n * S n - (k + List.length pre + 1 + n * n)))%nat
          by nia.
        apply fill_finished_later. exact Hafter.
      * exists name. eapply nan_written_mono; [|exact Hnan]. nia.
    + right. exists name. eapply nan_written_mono; [|exact Hnan]. nia.
Qed.

Lemma settling_seed (session : Session) :
  counted session ->
  (forall p, In p (get_python_package_version_names_all graph) ->
             query_first session p <> None) ->
  settling graph (fst (seed graph session)) (snd (seed graph session)).
Proof.
  intros Hc Hrows. split; [|split; [|split]].
  - apply seed_counted. exact Hc.
  - intros p Hp. apply seed_keeps_rows. apply Hrows. exact Hp.
  - rewrite seed_subgraphs. intros w Hw. apply in_flat_map in Hw.
    destruct Hw as (p & Hp & Hw). apply seeded_for_name in Hw. subst w. simpl.
    split; [exact Hp|]. intros d Hd. apply set_of_In. exact Hd.
  - intros p Hp. left.
    exists (SubGraphEntity.make p
              (set_of (get_depends_on_package_names graph p))).
    split; [|reflexivity]. rewrite seed_subgraphs. apply in_flat_map.
    exists p. split; [exact Hp|]. unfold seeded_for.
    destruct (get_depends_on_package_names graph p); left; reflexivity.
Qed.

End Settling.

(** X10: on complete, acyclic data the loop ends unless a product is NaN.
    If the dependency relation of the listed packages decreases some rank,
    every dependency of a listed package is listed, every listed package
    has a row and every row has its version count, then within [4 * N * N]
    iterations of the [while] loop, [N] being the number of listed
    packages, [_fill_graph_score] either returns, without raising, with a
    [subgraph_size] set for every listed package, or has computed a NaN
    product (infinity times zero) for some package.  The table keeps a NaN
    as NULL, so that package is left without a size and the packages that
    depend on it are rescheduled for ever. *)
Theorem fill_graph_score_ends (graph : GraphDatabase) (rank : string -> nat)
    (session : Session) (fuel : nat) :
  (forall p d, In p (get_python_package_version_names_all graph) ->
               In d (get_depends_on_package_names graph p) ->
               (rank d < rank p)%nat) ->
  (forall p d, In p (get_python_package_version_names_all graph) ->
               In d (get_depends_on_package_names graph p) ->
               In d (get_python_package_version_names_all graph)) ->
  (forall p, In p (get_python_package_version_names_all graph) ->
             query_first session p <> None) ->
  counted session ->
  (4 * List.length (get_python_package_version_names_all graph)
     * List.length (get_python_package_version_names_all graph) <= fuel)%nat ->
  (exists after,
     _fill_graph_score fuel graph session = Finished after
     /\ forall p, In p (get_python_package_version_names_all graph) ->
                  size_of after p <> None)
  \/ exists name, nan_written graph session fuel name.
Proof.
  intros Hacyclic Hclosed Hrows Hc Hfuel.
  pose proof (settling_seed graph session Hc Hrows) as Hs.
  pose proof (seeded_length graph session) as Hlen.
  assert (Hrun : _fill_graph_score 0 graph session
                 = drain 0 (fst (seed graph session))
                         (snd (seed graph session))).
  { unfold _fill_graph_score. destruct (seed graph session). reflexivity. }
  destruct (settling_ends graph rank session Hacyclic Hclosed
              (List.length (snd (seed graph session))) 0 _ _ eq_refl Hrun Hs)
    as [(after & Hd & Hend)|(name & Hnan)].
  - left. exists after. split.
    + replace fuel
        with (0 + List.length (snd (seed graph session))
                  * List.length (snd (seed graph session))
              + (fuel - List.length (snd (seed graph session))
                        * List.length (snd (seed graph session))))%nat
        by nia.
      apply fill_finished_later. exact Hd.
    + intros p Hp. destruct Hend as (_ & _ & _ & Hdone).
      destruct (Hdone p Hp) as [(w & [] & _)|Hsize]. exact Hsize.
  - right. exists name. eapply nan_written_mono; [|exact Hnan]. nia.
Qed.

Lemma fill_graph_score_ends_witness :
  (exists after,
     _fill_graph_score 36 graph_XCA unscored_XCA = Finished after
     /\ forall p, In p (get_python_package_version_names_all graph_XCA) ->
                  size_of after p <> None)
  \/ exists name, nan_written graph_XCA unscored_XCA 36 name.
Proof.
  apply (fill_graph_score_ends graph_XCA rank_XCA unscored_XCA 36).
  - intros p d [<-|[<-|[<-|[]]]] Hd; simpl in Hd;
      repeat (destruct Hd as [<-|Hd]; [vm_compute; lia|]); destruct Hd.
  - intros p d [<-|[<-|[<-|[]]]] Hd; simpl in Hd;
      repeat (destruct Hd as [<-|Hd]; [simpl; auto|]); destruct Hd.
  - intros p [<-|[<-|[<-|[]]]]; discriminate.
  - repeat constructor; discriminate.
  - simpl. lia.
Defined.

(** On complete, acyclic data a NaN product keeps the loop from ending: on
    [graph_WXBA] and [infinite_B] the entity of [X] computes infinity times
    zero, [X] is left without a size and the two entities of [W] are
    rescheduled for ever. *)
Lemma nan_product_blocks_dependents (fuel : nat) :
  let current := [row "A" 3 (Some 1%float); row "B" 0 (Some 9%float);
                  row "X" 1 None; row "W" 1 None] in
  _fill_graph_score (7 + fuel) graph_WXBA infinite_B
  = Running current [SubGraphEntity.make "W" ["X"];
                     SubGraphEntity.make "W" ["X"]]
  /\ size_of current "X" = None
  /\ size_of current "W" = None
  /\ nan_written graph_WXBA infinite_B (7 + fuel) "X".
Proof.
  cbv zeta. induction fuel as [|fuel IH].
  - split; [reflexivity|]. split; [reflexivity|]. split; [reflexivity|].
    exists 2%nat. do 5 eexists. repeat split; try reflexivity; [lia|].
    discriminate.
  - destruct IH as (Hrun & HX & HW & Hnan).
    rewrite Nat.add_succ_r, fill_succ, Hrun.
    split; [reflexivity|]. split; [exact HX|]. split; [exact HW|].
    apply nan_written_later. exact Hnan.
Qed.

(** ** The entities of the deque *)

(** X11: the second entity that line 137 appends for a package with
    dependencies is harmless: when the loop pops an entity that writes the
    size of its package (which is not among its own dependencies) and an
    equal entity is next in the deque, that one writes the same value to
    the same row, so after both iterations the table is as after the
    first. *)
Theorem duplicate_entity_is_harmless (session session' : Session)
    (subgraph : SubGraphEntity.t) (rest : list SubGraphEntity.t)
    (fuel : nat) :
  ~ In (SubGraphEntity.subgraph_name subgraph)
       (SubGraphEntity.to_visit subgraph) ->
  process session subgraph = Some (session', []) ->
  process session' subgraph = Some (session', [])
  /\ drain (S (S fuel)) session (subgraph :: subgraph :: rest)
     = drain fuel session' rest.
Proof.
  intros Hself Hp.
  pose proof (duplicate_entity_writes_same session session' subgraph Hself Hp)
    as Hp'.
  split; [exact Hp'|].
  cbn [drain]. rewrite Hp. cbn [app]. rewrite app_nil_r.
  cbn [drain]. rewrite Hp', app_nil_r. reflexivity.
Qed.

Lemma duplicate_entity_is_harmless_witness :
  process [row "A" 3 (Some 3%float); row "B" 2 (Some 9%float)]
          (SubGraphEntity.make "B" ["A"])
  = Some ([row "A" 3 (Some 3%float); row "B" 2 (Some 9%float)], [])
  /\ drain 2 seeded_AB
           [SubGraphEntity.make "B" ["A"]; SubGraphEntity.make "B" ["A"]]
     = drain 0 [row "A" 3 (Some 3%float); row "B" 2 (Some 9%float)] [].
Proof.
  apply (duplicate_entity_is_harmless seeded_AB
           [row "A" 3 (Some 3%float); row "B" 2 (Some 9%float)]
           (SubGraphEntity.make "B" ["A"]) [] 0).
  - simpl. intuition discriminate.
  - reflexivity.
Defined.

(** X12: the books of the entities of the deque are right.  In whatever
    state [_fill_graph_score] is found, every entity of the deque is for a
    listed package; its [subgraphs_seen] and [to_visit] have no name in
    common and no name twice, and together they hold the direct
    dependencies of the package; the dependencies it has folded in are
    those of [subgraphs_seen], one factor each, and its accumulator is the
    product of these factors from [1.0] on, each factor being the size
    times the count that the row of the dependency held in an earlier
    iteration of the call that popped an entity of the package.  So a
    later visit never multiplies in again a dependency that has been
    folded. *)
Theorem deque_entities_wellformed (graph : GraphDatabase) (session : Session)
    (fuel : nat) :
  match _fill_graph_score fuel graph session with
  | Running _ subgraphs =>
      Forall (fun w =>
                accounted graph session fuel w
                /\ forall d, In d (SubGraphEntity.subgraphs_seen w) ->
                             ~ In d (SubGraphEntity.to_visit w)) subgraphs
  | Finished _ | Crashed => True
  end.
Proof.
  pose proof (fill_accounted graph session fuel) as H.
  destruct (_fill_graph_score fuel graph session); try exact I.
  eapply Forall_impl; [|exact H]. intros w Hw. split; [exact Hw|].
  destruct Hw as (_ & Hnd & _). intros d Hseen Hvisit.
  revert Hnd Hseen Hvisit.
  generalize (SubGraphEntity.subgraphs_seen w) as seen.
  induction seen as [|a seen IH]; intros Hnd Hseen Hvisit; [destruct Hseen|].
  cbn [app] in Hnd. inversion Hnd as [|? ? Hnotin Hnd']; subst.
  destruct Hseen as [->|Hseen].
  - apply Hnotin. apply in_app_iff. right. exact Hvisit.
  - exact (IH Hnd' Hseen Hvisit).
Qed.

(** ** [_fill_version_count], then the seeding walk *)

(** X13: with the call of line 222 restored, the seeding walk gives every
    listed package without dependencies the number of versions that the
    graph database reports, as a float, whatever the table held before. *)
Theorem counted_leaf_is_seeded (graph : GraphDatabase) (count : string -> Z)
    (session : Session) (name : string) :
  In name (get_python_package_version_names_all graph) ->
  get_depends_on_package_names graph name = [] ->
  query_first (fst (seed graph (_fill_version_count graph count session))) name
  = Some (Package.Build name (Some (count name))
            (Some (float_of_int (count name)))).
Proof.
  intros Hin Hleaf. unfold seed.
  apply (seed_leaf_row graph name (Some (count name)) _ Hleaf);
    [|left; exact Hin].
  eexists. split.
  - unfold _fill_version_count. apply fill_version_count_row. left. exact Hin.
  - reflexivity.
Qed.

Lemma counted_leaf_is_seeded_witness :
  query_first
    (fst (seed (graph_of ["A"; "B"] edges_AB)
               (_fill_version_count (graph_of ["A"; "B"] edges_AB)
                  (fun _ => 7%Z) []))) "A"
  = Some (Package.Build "A" (Some 7%Z) (Some (float_of_int 7))).
Proof.
  apply (counted_leaf_is_seeded (graph_of ["A"; "B"] edges_AB)
           (fun _ => 7%Z) [] "A").
  - simpl. auto.
  - reflexivity.
Defined.
